(** * Emmet for Sublime Text: the plugin glue, embedded in Rocq

  A shallow embedding of [emmet-plugin.py]: the text helpers, the settings
  payload, the completion handlers of [TabExpandHandler] and the
  as-you-type commands ([CommandsAsYouTypeBase], [ExpandAsYouType],
  [WrapAsYouType]).

  Python [str] values are byte strings: they are modelled as [string].
  Python dictionaries are [gmap string _].  Python exceptions are the
  [None] of an [option] result where the code can raise. *)

From Stdlib Require Import ZArith Ascii String.
From stdpp Require Import gmap strings list fin_maps.

Local Open Scope Z_scope.
Set Warnings "-register-all".

(** ** Python text primitives used by the plugin *)

Module Text.

Definition LF : ascii := "010"%char.
Definition CR : ascii := "013"%char.
Definition newline : string := String LF "".

(** [str.splitlines()] on a byte string: a line ends at "\n", at "\r" or at
    "\r\n"; the terminators are dropped and a trailing empty piece is not
    reported.  [cur] is the current line, reversed. *)
Fixpoint splitlines_go (cur s : string) : list string :=
  match s with
  | "" => match cur with "" => [] | _ => [String.rev cur] end
  | String c s' =>
      if decide (c = LF) then String.rev cur :: splitlines_go "" s'
      else if decide (c = CR) then
        match s' with
        | String c' s'' =>
            if decide (c' = LF) then String.rev cur :: splitlines_go "" s''
            else String.rev cur :: splitlines_go "" s'
        | "" => String.rev cur :: splitlines_go "" s'
        end
      else splitlines_go (String c cur) s'
  end.

Definition splitlines (text : string) : list string := splitlines_go "" text.

(** [line.startswith(pad)] *)
Fixpoint startswith (line pad : string) {struct pad} : bool :=
  match pad, line with
  | "", _ => true
  | String p pad', String c line' =>
      if decide (c = p) then startswith line' pad' else false
  | String _ _, "" => false
  end.

(** [s[n:]] for [0 <= n] *)
Fixpoint slice_from (n : nat) (s : string) : string :=
  match n, s with
  | O, _ => s
  | S n', String _ s' => slice_from n' s'
  | S _, "" => ""
  end.

(** [sep.join(lines)] *)
Definition join (sep : string) (lines : list string) : string :=
  String.concat sep lines.

(** [c in value] for a one-character needle *)
Fixpoint contains_char (c : ascii) (s : string) : bool :=
  match s with
  | "" => false
  | String c' s' => if decide (c' = c) then true else contains_char c s'
  end.

(** [s.isspace()]: at least one character and all of them whitespace *)
Fixpoint all_space (s : string) : bool :=
  match s with
  | "" => true
  | String c s' => Ascii.is_space c && all_space s'
  end.

Definition isspace (s : string) : bool :=
  match s with "" => false | _ => all_space s end.

(** Truth value of a Python string *)
Definition str_truthy (s : string) : bool :=
  match s with "" => false | _ => true end.

(** The [for i, line in enumerate(lines)] loop of [unindent_text].  The loop
    reads [lines[i]] from the list it is updating; it stops when the index
    runs past the end.  [fuel] bounds the number of iterations. *)
Fixpoint unindent_loop (pad : string) (fuel i : nat) (lines : list string)
  : list string :=
  match fuel with
  | O => lines
  | S fuel' =>
      match lines !! i with
      | None => lines
      | Some line =>
          let lines' :=
            if startswith line pad
            then <[i := slice_from (String.length pad) line]> lines
            else lines in
          unindent_loop pad fuel' (S i) lines'
      end
  end.

Definition unindent_text (text pad : string) : string :=
  let lines := splitlines text in
  join newline (unindent_loop pad (length lines) 0 lines).

(** [re.match(r'^(\s+)', line)]: the match object is represented by its
    group 0, the greedy run of leading whitespace; no match when that run
    is empty. *)
Fixpoint leading_space (s : string) : string :=
  match s with
  | String c s' => if Ascii.is_space c then String c (leading_space s') else ""
  | "" => ""
  end.

Definition re_match_space (line : string) : option string :=
  match leading_space line with
  | "" => None
  | g => Some g
  end.

(** [m and m.group(0) or ''] *)
Definition get_line_padding (line : string) : string :=
  match re_match_space line with
  | None => ""
  | Some g => if str_truthy g then g else ""
  end.

End Text.

(** ** Settings values and the settings store *)

(** The values a settings file (JSON) can hold, as Python sees them. *)
Inductive value :=
  | VNone
  | VBool (flag : bool)
  | VInt (n : Z)
  | VStr (s : string)
  | VList (items : list value)
  | VDict (entries : list (string * value)).

(** Python truth value: [if data:] *)
Definition truthy (v : value) : bool :=
  match v with
  | VNone => false
  | VBool flag => flag
  | VInt n => negb (n =? 0)
  | VStr s => Text.str_truthy s
  | VList items => match items with [] => false | _ => true end
  | VDict entries => match entries with [] => false | _ => true end
  end.

(** [settings.get(name, default)] *)
Definition settings_get (settings : gmap string value) (name : string)
    (default_value : value) : value :=
  match settings !! name with
  | Some v => v
  | None => default_value
  end.

(** [needle in haystack] for a string [needle] *)
Fixpoint str_contains (haystack needle : string) : bool :=
  Text.startswith haystack needle
  || match haystack with
     | "" => false
     | String _ rest => str_contains rest needle
     end.

Definition is_str (s : string) (v : value) : bool :=
  match v with
  | VStr s' => bool_decide (s' = s)
  | _ => false
  end.

(** [name in container]: membership in a list, substring of a string, key of
    a dictionary; any other right operand raises [TypeError]. *)
Definition py_in (name : string) (container : value) : option bool :=
  match container with
  | VList items => Some (existsb (is_str name) items)
  | VStr s => Some (str_contains s name)
  | VDict entries => Some (existsb (λ kv, bool_decide (kv.1 = name)) entries)
  | VNone | VBool _ | VInt _ => None
  end.

(** ** The engine context, seen from [update_settings] *)

Inductive ctx_call :=
  | SetExtPath (path : value)
  | Reset
  | LoadUserData (json : string).

Definition keys : list string :=
  ["snippets"; "preferences"; "syntaxProfiles"; "profiles"].

(** The [for k in keys] loop filling [payload]. *)
Fixpoint payload_loop (settings : gmap string value) (ks : list string)
    (payload : gmap string value) : gmap string value :=
  match ks with
  | [] => payload
  | k :: ks' =>
      let data := settings_get settings k VNone in
      payload_loop settings ks'
        (if truthy data then <[k := data]> payload else payload)
  end.

Definition payload_of (settings : gmap string value) : gmap string value :=
  payload_loop settings keys ∅.

Section settings.
(** [json.dumps] of the standard library. *)
Variable json_dumps : gmap string value → string.

(** [update_settings()]: the calls it makes on [ctx], in order. *)
Definition update_settings (settings : gmap string value) : list ctx_call :=
  [ SetExtPath (settings_get settings "extensions_path" VNone);
    Reset;
    LoadUserData (json_dumps (payload_of settings)) ].

End settings.


(** ** The editor, as far as the plugin calls it

    A model of the part of the Sublime Text API that the plugin uses: a view
    is a text buffer, an ordered list of selection regions and an undo stack
    of edit groups.  Snippet fields ([$1], [${0}]) are not interpreted: a
    snippet is inserted as the text it is. *)

Module Sublime.

Record Region := mkRegion { a : Z; b : Z }.

(** [Region.begin()], [Region.end()] *)
Definition region_begin (r : Region) : Z := Z.min (a r) (b r).
Definition region_end (r : Region) : Z := Z.max (a r) (b r).

Record View := mkView {
  buffer : string;
  sel : list Region;
  undo_stack : list (string * list Region)
}.

Definition size (v : View) : Z := Z.of_nat (String.length (buffer v)).

(** A point of the buffer, clamped to it. *)
Definition point (v : View) (p : Z) : nat := Z.to_nat (Z.min (Z.max p 0) (size v)).

(** [view.substr(region)] *)
Definition substr (v : View) (r : Region) : string :=
  let s := point v (region_begin r) in
  let e := point v (region_end r) in
  String.substring s (e - s) (buffer v).

(** Offset of the start of the line that holds offset [p]; [i] is the offset
    of the character looked at and [start] the start of its line. *)
Fixpoint line_start_go (s : string) (p i start : nat) : nat :=
  match s with
  | "" => start
  | String c s' =>
      if (p <=? i)%nat then start
      else line_start_go s' p (S i) (if decide (c = Text.LF) then S i else start)
  end.

(** Offset of the first newline at or after offset [p] (or the buffer's end). *)
Fixpoint line_end_go (s : string) (p i : nat) : nat :=
  match s with
  | "" => i
  | String c s' =>
      if (p <=? i)%nat && bool_decide (c = Text.LF) then i
      else line_end_go s' p (S i)
  end.

(** [view.line(region)]: the region grown to whole lines. *)
Definition line (v : View) (r : Region) : Region :=
  mkRegion (Z.of_nat (line_start_go (buffer v) (point v (region_begin r)) 0 0))
           (Z.of_nat (line_end_go (buffer v) (point v (region_end r)) 0)).

(** Where a point ends up after the text from [s] to [e] is replaced by
    [n] characters. *)
Definition moved (s e n p : Z) : Z :=
  if p <? s then p else if p <? e then s + n else p - (e - s) + n.

(** [view.erase(edit, region)] *)
Definition erase (v : View) (r : Region) : View :=
  let s := point v (region_begin r) in
  let e := point v (region_end r) in
  {| buffer := String.substring 0 s (buffer v) +:+ Text.slice_from e (buffer v);
     sel := (λ x, mkRegion (moved (Z.of_nat s) (Z.of_nat e) 0 (a x))
                           (moved (Z.of_nat s) (Z.of_nat e) 0 (b x))) <$> sel v;
     undo_stack := undo_stack v |}.

(** Replace every selection region by [contents], front to back; [delta] is
    how far the text behind the regions already replaced has moved.  The
    caret is left behind each inserted text. *)
Fixpoint replace_all (contents : string) (delta : Z) (sels : list Region)
    (buf : string) : string * list Region :=
  match sels with
  | [] => (buf, [])
  | r :: rest =>
      let s := Z.to_nat (region_begin r + delta) in
      let e := Z.to_nat (region_end r + delta) in
      let n := Z.of_nat (String.length contents) in
      let buf' := String.substring 0 s buf +:+ contents +:+ Text.slice_from e buf in
      let caret := Z.of_nat s + n in
      let (buf'', carets) :=
        replace_all contents (delta + n - (region_end r - region_begin r)) rest buf' in
      (buf'', mkRegion caret caret :: carets)
  end.

(** [view.run_command('insert_snippet', {'contents': contents})]: the
    contents are put in place of every selection region as the text they
    are.  The editor also expands the fields of a snippet and indents its
    lines; that is not modelled. *)
Definition insert_snippet (v : View) (contents : string) : View :=
  let (buf, carets) := replace_all contents 0 (sel v) (buffer v) in
  {| buffer := buf; sel := carets; undo_stack := undo_stack v |}.

(** [view.begin_edit()] opens an edit group: what [undo] will go back to. *)
Definition begin_edit (v : View) : View :=
  {| buffer := buffer v; sel := sel v;
     undo_stack := (buffer v, sel v) :: undo_stack v |}.

(** [view.end_edit(edit)] *)
Definition end_edit (v : View) : View := v.

(** [view.run_command('undo')]: back to the start of the last edit group. *)
Definition undo (v : View) : View :=
  match undo_stack v with
  | [] => v
  | (buf, sels) :: older => {| buffer := buf; sel := sels; undo_stack := older |}
  end.

(** [view.sel().clear(); view.sel().add(region)] *)
Definition select (v : View) (r : Region) : View :=
  {| buffer := buffer v; sel := [r]; undo_stack := undo_stack v |}.

End Sublime.

Abbreviation View := Sublime.View.
Abbreviation Region := Sublime.Region.

(** ** The JavaScript engine, as far as the plugin calls it *)

(** What a call into the engine gives back: an exception, or a value that is
    a string or null. *)
Inductive js_result :=
  | JsThrow
  | JsReturn (text : option string).

(** The entry points of [ctx.js().locals].  The engine is not part of this
    file: it is a parameter of everything that calls it. *)
Record Engine := {
  pyRunAction : string → bool;
  pyExpandAbbreviationAsYouType : string → js_result;
  pyWrapAsYouType : string → string → js_result;
  pyCaptureWrappingRange : View → option (Z * Z)
}.

(** The calls made into the engine, as they are made. *)
Inductive engine_call :=
  | PyRunAction (action : string)
  | PyExpandAbbreviationAsYouType (abbr : string)
  | PyWrapAsYouType (abbr content : string)
  | PyCaptureWrappingRange.

(** The names imported from the [completions] package, which is not part of
    this file: scope selectors, the tag and attribute finders and the static
    completion tables. *)
Record Completions := {
  EMMET_SCOPE : string;
  HTML_INSIDE_TAG : string;
  HTML_INSIDE_TAG_ATTRIBUTE : string;
  find_tag_name : View → Z → option string;
  find_attribute_name : View → Z → option string;
  HTML_ELEMENTS_ATTRIBUTES : gmap string (list string);
  HTML_ATTRIBUTES_VALUES : gmap string (list string)
}.

(** ** [TabExpandHandler] *)

(** The two completion handlers, named as the methods are: the blacklist is
    matched against [handler.__name__]. *)
Inductive handler :=
  | html_elements_attributes_handler
  | html_attributes_values_handler.

Definition handler_name (h : handler) : string :=
  match h with
  | html_elements_attributes_handler => "html_elements_attributes"
  | html_attributes_values_handler => "html_attributes_values"
  end.

Definition TAB : string := String "009"%char "".
Definition DQUOTE : string := String "034"%char "".

(** A completion: trigger, label and contents. *)
Definition completion : Type := string * string * string.

(** [settings.get(name, default)] read as a string; a value that is not a
    string cannot be handed to [match_selector] ([TypeError]). *)
Definition as_str (v : value) : option string :=
  match v with
  | VStr s => Some s
  | _ => None
  end.

Section tab_expand_handler.
(** The syntax scopes of the editor: [view.match_selector(point, selector)]. *)
Context (match_selector : View → Z → string → bool).
Context (cmpl : Completions).
Context (settings : gmap string value).
Context (js : Engine).

(** [view.sel()[0].b]; [IndexError] when there is no selection. *)
Definition caret (view : View) : option Z :=
  r ← head (Sublime.sel view); Some (Sublime.b r).

Definition correct_syntax (view : View) : option bool :=
  pos ← caret view; Some (match_selector view pos (EMMET_SCOPE cmpl)).

Definition html_elements_attributes (view : View) (prefix : string) (pos : Z)
  : list completion :=
  let tag := find_tag_name cmpl view pos in
  let values := default [] (tag ≫= λ t, HTML_ELEMENTS_ATTRIBUTES cmpl !! t) in
  (λ v, (v, v +:+ TAB +:+ "@" +:+ v, v +:+ "=" +:+ DQUOTE +:+ "$1" +:+ DQUOTE)) <$> values.

Definition html_attributes_values (view : View) (prefix : string) (pos : Z)
  : list completion :=
  let attr := find_attribute_name cmpl view pos in
  let values := default [] (attr ≫= λ t, HTML_ATTRIBUTES_VALUES cmpl !! t) in
  (λ v, (v, v +:+ TAB +:+ "@=" +:+ v, v)) <$> values.

(** Calling a handler: [handler(view, prefix, pos)] *)
Definition call_handler (h : handler) (view : View) (prefix : string) (pos : Z)
  : list completion :=
  match h with
  | html_elements_attributes_handler => html_elements_attributes view prefix pos
  | html_attributes_values_handler => html_attributes_values view prefix pos
  end.

Definition COMPLETIONS : list (string * handler) :=
  [ (HTML_INSIDE_TAG cmpl, html_elements_attributes_handler);
    (HTML_INSIDE_TAG_ATTRIBUTE cmpl, html_attributes_values_handler) ].

(** The [for sub_selector, handler in COMPLETIONS] loop: [Some (Some h)] is
    [return handler], [Some None] is falling out of the loop, [None] an
    exception. *)
Fixpoint completion_loop (black_list : value) (view : View) (pos : Z)
    (pairs : list (string * handler)) : option (option handler) :=
  match pairs with
  | [] => Some None
  | (sub_selector, h) :: rest =>
      listed ← py_in (handler_name h) black_list;
      if listed : bool then completion_loop black_list view pos rest
      else if match_selector view pos sub_selector
              || match_selector view (pos - 1) sub_selector
           then Some (Some h)
           else completion_loop black_list view pos rest
  end.

Definition completion_handler (view : View) : option (option handler) :=
  let black_list := settings_get settings "completions_blacklist" (VList []) in
  pos ← caret view;
  completion_loop black_list view pos COMPLETIONS.

(** [on_query_context]: the value returned and the calls made into the
    engine.  The conditions are evaluated left to right and only as far as
    Python's [and] needs them. *)
Definition on_query_context (view : View) (key : string)
  : option (bool * list engine_call) :=
  if negb (bool_decide (key = "is_abbreviation")) then Some (false, [])
  else
    filtered ←
      (if negb (truthy (settings_get settings "disable_completions" (VBool false)))
       then
         ok ← correct_syntax view;
         if ok : bool then h ← completion_handler view; Some (bool_decide (is_Some h))
         else Some false
       else Some false);
    if filtered : bool then Some (false, [])
    else
      let banned_scopes :=
        settings_get settings "disable_tab_abbreviations_for_scopes" (VStr "") in
      banned ←
        (if truthy banned_scopes then
           pos ← caret view;
           selector ← as_str banned_scopes;
           Some (match_selector view pos selector)
         else Some false);
      if banned : bool then Some (false, [])
      else Some (pyRunAction js "expand_abbreviation",
                 [PyRunAction "expand_abbreviation"]).

Definition on_query_completions (view : View) (prefix : string)
  : option (list completion) :=
  ok ← correct_syntax view;
  if negb ok || truthy (settings_get settings "disable_completions" (VBool false))
  then Some []
  else
    h ← completion_handler view;
    match h with
    | Some h =>
        pos ← caret view;
        Some (call_handler h view prefix pos)
    | None => Some []
    end.

End tab_expand_handler.

(** ** The as-you-type commands *)

(** The class of a command object. *)
Inductive command :=
  | CommandsAsYouTypeBase
  | ExpandAsYouType
  | WrapAsYouType.

(** The attributes of a command object that the methods read and write.
    [selection] is the class attribute [selection = ''] until [setup]
    assigns it on the object. *)
Record Self := mkSelf {
  cls : command;
  erase : bool;
  selection : string
}.

(** A command object before its first change of input.  The class
    statement sets [selection]; [erase] is set by [run] alone, to the value
    given here, and [insert] and [undo] are reached only through the panel
    that [run] opens. *)
Definition new_command (c : command) : Self :=
  {| cls := c; erase := false; selection := "" |}.

(** A callback handed to [sublime.set_timeout(callback, 0)]: the lambda of
    [undo], or the closure [inner_insert] over [abbr]. *)
Inductive task :=
  | RunUndo
  | InnerInsert (abbr : string).

(** Everything the methods touch: the command object, its view (the methods
    reach it as [self.view] and as [active_view()]: one view here), the
    callbacks waiting in the editor's timer queue and the calls made into the
    engine so far, both oldest first.  The editor is taken to run callbacks
    set with the same delay in the order in which they were set. *)
Record World := mkWorld {
  self : Self;
  view : View;
  timers : list task;
  calls : list engine_call
}.

Definition set_self (w : World) (s : Self) : World :=
  {| self := s; view := view w; timers := timers w; calls := calls w |}.
Definition set_view (w : World) (v : View) : World :=
  {| self := self w; view := v; timers := timers w; calls := calls w |}.
Definition set_erase (w : World) (flag : bool) : World :=
  set_self w {| cls := cls (self w); erase := flag; selection := selection (self w) |}.
Definition set_selection (w : World) (s : string) : World :=
  set_self w {| cls := cls (self w); erase := erase (self w); selection := s |}.
Definition log_call (w : World) (c : engine_call) : World :=
  {| self := self w; view := view w; timers := timers w; calls := calls w ++ [c] |}.

(** [sublime.set_timeout(callback, 0)]: the callback joins the queue. *)
Definition set_timeout (w : World) (callback : task) : World :=
  {| self := self w; view := view w; timers := timers w ++ [callback];
     calls := calls w |}.

(** The value a [try: return engine(...) except Exception: ...] gives. *)
Definition swallow (r : js_result) : option string :=
  match r with
  | JsThrow => None
  | JsReturn text => text
  end.

(** [x or ''] for [x] a string or [None] *)
Definition or_empty (x : option string) : string :=
  match x with
  | Some s => if Text.str_truthy s then s else ""
  | None => ""
  end.

(** The for loop of [run_command] over [view.sel()]: the region set is read
    by index while the buffer is being edited. *)
Fixpoint erase_trailing (fuel i : nat) (v : View) : View :=
  match fuel with
  | O => v
  | S fuel' =>
      match Sublime.sel v !! i with
      | None => v
      | Some s =>
          let trailing :=
            Sublime.mkRegion (Sublime.region_end s)
                             (Sublime.region_end (Sublime.line v s)) in
          erase_trailing fuel' (S i)
            (if Text.isspace (Sublime.substr v trailing)
             then Sublime.erase v trailing else v)
      end
  end.

Section as_you_type.
Context (js : Engine).
(** Whether [value.decode('utf-8')] returns; it raises otherwise.  The decoded
    text is modelled by the bytes it was decoded from. *)
Context (decodes : string → bool).

(** [self.filter_input(abbr)]: the value returned, and the world with the
    call into the engine logged. *)
Definition filter_input (w : World) (abbr : string) : option string * World :=
  match cls (self w) with
  | CommandsAsYouTypeBase => (Some abbr, w)
  | ExpandAsYouType =>
      (swallow (pyExpandAbbreviationAsYouType js abbr),
       log_call w (PyExpandAbbreviationAsYouType abbr))
  | WrapAsYouType =>
      (swallow (pyWrapAsYouType js abbr (selection (self w))),
       log_call w (PyWrapAsYouType abbr (selection (self w))))
  end.

(** [self.run_command(view, value)]: the view it leaves, and whether it
    returned ([true]) or raised ([false]). *)
Definition run_command (v : View) (value : string) : View * bool :=
  let v1 :=
    if Text.contains_char Text.LF value
    then erase_trailing (length (Sublime.sel v)) 0 v
    else v in
  if decodes value then (Sublime.insert_snippet v1 value, true)
  else (v1, false).

(** The closure [inner_insert] of [insert], run by the timer. *)
Definition inner_insert (abbr : string) (w : World) : World :=
  let w1 := set_view w (Sublime.begin_edit (view w)) in
  let (filtered, w2) := filter_input w1 abbr in
  let cmd_input := or_empty filtered in
  let (v3, returned) := run_command (view w2) cmd_input in
  let w3 := set_view w2 v3 in
  let w4 := if returned then set_erase w3 true else w3 in
  set_view w4 (Sublime.end_edit (view w4)).

(** [self.undo()] *)
Definition undo (w : World) : World :=
  if erase (self w) then set_timeout w RunUndo else w.

(** [self.insert(abbr)], the [on_change] callback of the input panel. *)
Definition insert (abbr : string) (w : World) : World :=
  if negb (Text.str_truthy abbr) && erase (self w) then
    set_erase (undo w) false
  else
    set_timeout (undo w) (InnerInsert abbr).

(** [self.setup()] *)
Definition setup (w : World) : World :=
  match cls (self w) with
  | CommandsAsYouTypeBase | ExpandAsYouType => w
  | WrapAsYouType =>
      let w1 := log_call w PyCaptureWrappingRange in
      match pyCaptureWrappingRange js (view w) with
      | None => w1
      | Some (r0, r1) =>
          let v := Sublime.select (view w1) (Sublime.mkRegion r0 r1) in
          let first := Sublime.mkRegion r0 r1 in
          let line := Sublime.substr v (Sublime.line v first) in
          let s := Sublime.substr v first in
          set_selection (set_view w1 v)
            (Text.unindent_text s (Text.get_line_padding line))
      end
  end.

(** [self.run(edit)], up to opening the input panel. *)
Definition run (w : World) : World :=
  set_erase (setup w) false.

(** The editor runs one callback of the timer queue. *)
Definition run_task (t : task) (w : World) : World :=
  match t with
  | RunUndo => set_view w (Sublime.undo (view w))
  | InnerInsert abbr => inner_insert abbr w
  end.

Definition tick (w : World) : World :=
  match timers w with
  | [] => w
  | t :: rest =>
      run_task t {| self := self w; view := view w; timers := rest; calls := calls w |}
  end.

(** What the editor can do with the command: invoke it, report a change of
    the panel's text, report that the panel was cancelled, run the oldest
    waiting callback, or change the document on its own (the user or another
    plugin edits it). *)
Inductive event :=
  | Invoke
  | Change (abbr : string)
  | Cancel
  | Tick
  | Outside (v : View).

Definition handle (w : World) (e : event) : World :=
  match e with
  | Invoke => run w
  | Change abbr => insert abbr w
  | Cancel => undo w
  | Tick => tick w
  | Outside v => set_view w v
  end.

Definition exec (trace : list event) (w : World) : World :=
  foldl handle w trace.

End as_you_type.

(** ** Notions the theorems are stated with *)


(** A text holds a line break: a line feed or a carriage return. *)
Fixpoint has_break (s : string) : bool :=
  match s with
  | "" => false
  | String c s' =>
      bool_decide (c = Text.LF) || bool_decide (c = Text.CR) || has_break s'
  end.

(** One step of the loop body, as a function of the line alone. *)
Definition strip_pad (pad line : string) : string :=
  if Text.startswith line pad
  then Text.slice_from (String.length pad) line else line.


(** A blacklist that [in] accepts as its right operand. *)
Definition is_container (v : value) : bool :=
  match v with
  | VList _ | VStr _ | VDict _ => true
  | VNone | VBool _ | VInt _ => false
  end.

(** A pair of [COMPLETIONS] qualifies at [pos]: the handler's name is not in
    the blacklist and the selector matches at [pos] or one position before. *)
Definition qualifies (match_selector : View → Z → string → bool)
    (black_list : value) (view : View) (pos : Z) (pair : string * handler) : bool :=
  negb (default false (py_in (handler_name pair.2) black_list))
  && (match_selector view pos pair.1 || match_selector view (pos - 1) pair.1).

(** The attributes the table lists for a tag; none for an absent or unknown
    tag. *)
Definition listed_attributes (table : gmap string (list string))
    (tag : option string) : list string :=
  match tag with
  | Some t => match table !! t with Some attrs => attrs | None => [] end
  | None => []
  end.

Section schedule.
Context (js : Engine) (decodes : string → bool).

(** The callbacks the events of a trace hand to [set_timeout], in the order
    the events come. *)
Fixpoint issued (trace : list event) (w : World) : list task :=
  match trace with
  | [] => []
  | e :: rest =>
      match e with
      | Tick | Outside _ => []
      | Invoke | Change _ | Cancel =>
          drop (length (timers w)) (timers (handle js decodes w e))
      end ++ issued rest (handle js decodes w e)
  end.

(** The callbacks the editor runs during a trace, in the order it runs
    them. *)
Fixpoint ran (trace : list event) (w : World) : list task :=
  match trace with
  | [] => []
  | e :: rest =>
      match e with
      | Tick => option_list (head (timers w))
      | _ => []
      end ++ ran rest (handle js decodes w e)
  end.

End schedule.

(** The view before an apply step: what is left of the previous insertion
    has been undone when the command had one on record. *)
Definition before_apply (w : World) : View :=
  if erase (self w) then Sublime.undo (view w) else view w.

(** Changes of the panel's text, each with its callbacks run before the next
    one arrives (a change hands the editor two callbacks at most). *)
Definition paced (abbrs : list string) : list event :=
  abbrs ≫= λ abbr, [Change abbr; Tick; Tick].

(** ** Sample editors, settings and engines

    Concrete values at which the theorems below are run. *)

(** Selectors and tables in the style of the [completions] package. *)
Definition sample_cmpl : Completions := {|
  EMMET_SCOPE := "text.html - source, text.xml";
  HTML_INSIDE_TAG := "text.html meta.tag - string";
  HTML_INSIDE_TAG_ATTRIBUTE := "text.html meta.tag string";
  find_tag_name := λ _ _, Some "a";
  find_attribute_name := λ _ _, Some "target";
  HTML_ELEMENTS_ATTRIBUTES := {[ "a" := ["href"; "title"] ]};
  HTML_ATTRIBUTES_VALUES := {[ "target" := ["_blank"; "_self"] ]}
|}.

(** A view on [<a >] with the caret inside the tag, at offset 3. *)
Definition tag_view : View :=
  {| Sublime.buffer := "<a >"; Sublime.sel := [Sublime.mkRegion 3 3];
     Sublime.undo_stack := [] |}.

(** Scopes of [tag_view]: HTML everywhere, inside the tag from 1 to 3. *)
Definition tag_scopes (v : View) (pos : Z) (selector : string) : bool :=
  bool_decide (selector = EMMET_SCOPE sample_cmpl)
  || (bool_decide (selector = HTML_INSIDE_TAG sample_cmpl)
      && (1 <=? pos) && (pos <=? 3)).

(** A view on [<script>x] with the caret behind the tag, at offset 8. *)
Definition script_view : View :=
  {| Sublime.buffer := "<script>x"; Sublime.sel := [Sublime.mkRegion 8 8];
     Sublime.undo_stack := [] |}.

(** Scopes of [script_view]: the tag runs up to offset 7; from offset 8 on
    the text is embedded source, which the Emmet scope excludes. *)
Definition script_scopes (v : View) (pos : Z) (selector : string) : bool :=
  (bool_decide (selector = EMMET_SCOPE sample_cmpl) && (pos <? 8))
  || (bool_decide (selector = HTML_INSIDE_TAG sample_cmpl)
      && (1 <=? pos) && (pos <? 8)).

Definition no_settings : gmap string value := ∅.

(** Settings with user snippets, an empty profiles mapping and a key the
    plugin does not know. *)
Definition user_settings : gmap string value :=
  {[ "snippets" := VDict [("css", VDict [])];
     "profiles" := VDict [];
     "theme" := VStr "dark" ]}.

(** Settings that ban the Tab key in HTML and XML. *)
Definition banned_settings : gmap string value :=
  {[ "disable_tab_abbreviations_for_scopes" := VStr "text.html - source, text.xml" ]}.

(** An engine that expands [x] to [<x></x>], wraps [t] as [<x>t</x>],
    proposes the first selection as the range to wrap when it is not empty,
    and reports every action as done. *)
Definition sample_engine : Engine := {|
  pyRunAction := λ _, true;
  pyExpandAbbreviationAsYouType := λ abbr,
    JsReturn (Some ("<" +:+ abbr +:+ "></" +:+ abbr +:+ ">"));
  pyWrapAsYouType := λ abbr content,
    JsReturn (Some ("<" +:+ abbr +:+ ">" +:+ content +:+ "</" +:+ abbr +:+ ">"));
  pyCaptureWrappingRange := λ v,
    match head (Sublime.sel v) with
    | Some r =>
        if Sublime.region_begin r <? Sublime.region_end r
        then Some (Sublime.region_begin r, Sublime.region_end r)
        else None
    | None => None
    end
|}.


(** Every string decodes. *)
Definition all_decode (value : string) : bool := true.

(** An empty document with the caret at its start. *)
Definition empty_view : View :=
  {| Sublime.buffer := ""; Sublime.sel := [Sublime.mkRegion 0 0];
     Sublime.undo_stack := [] |}.

(** A document [foo] with all of it selected. *)
Definition foo_view : View :=
  {| Sublime.buffer := "foo"; Sublime.sel := [Sublime.mkRegion 0 3];
     Sublime.undo_stack := [] |}.

(** The same place after the document was changed to [bar]. *)
Definition bar_view : View :=
  {| Sublime.buffer := "bar"; Sublime.sel := [Sublime.mkRegion 0 3];
     Sublime.undo_stack := [] |}.

(** A command object just made, on a view, with nothing waiting. *)
Definition new_world (c : command) (v : View) : World :=
  {| self := new_command c; view := v; timers := []; calls := [] |}.


(** ** The other commands of the plugin *)

(** [end or start]: [end] is None or a number, and 0 counts as missing. *)
Definition end_or_start (end_ : option Z) (start : Z) : Z :=
  match end_ with
  | Some e => if e =? 0 then start else e
  | None => start
  end.

Section replace_substring.
(** Whether [value.decode('utf-8')] returns, as for [run_command]. *)
Context (decodes : string → bool).

(** [replace_substring(start, end, value, no_indent)], the function the
    engine calls back to edit the document: the view it leaves, and whether
    it returned ([true]) or raised ([false]).  Nothing catches the exception
    of [decode]: when it is raised the edit group stays open and the
    selection has already moved. *)
Definition replace_substring (v : View) (start : Z) (end_ : option Z)
    (value : string) (no_indent : bool) : View * bool :=
  let v1 := Sublime.begin_edit v in
  let first := Sublime.mkRegion start (end_or_start end_ start) in
  let v2 := Sublime.select v1 first in
  let value' :=
    if no_indent then
      let line := Sublime.substr v2 (Sublime.line v2 first) in
      Text.unindent_text value (Text.get_line_padding line)
    else value in
  if decodes value'
  then (Sublime.end_edit (Sublime.insert_snippet v2 value'), true)
  else (v2, false).

End replace_substring.

Module EmmetInsertAttribute.

(** The text in front of the attribute: a space, unless the character
    before the first selection is whitespace or there is no selection. *)
Definition prefix_of (v : View) : string :=
  match head (Sublime.sel v) with
  | Some s =>
      if Text.isspace
           (Sublime.substr v
              (Sublime.mkRegion (Sublime.region_begin s - 1) (Sublime.region_begin s)))
      then "" else " "
  | None => ""
  end.

(** [EmmetInsertAttribute.run(edit, attribute)]; [attribute] is None when
    the command is run without the argument. *)
Definition run (attribute : option string) (v : View) : View :=
  match attribute with
  | None => v
  | Some attr =>
      if negb (Text.str_truthy attr) then v
      else Sublime.insert_snippet v
             (prefix_of v +:+ attr +:+ "=" +:+ DQUOTE +:+ "$1" +:+ DQUOTE)
  end.

End EmmetInsertAttribute.

(** ** More notions the theorems are stated with *)

(** The characters of a text that are not whitespace, in order. *)
Fixpoint non_space (s : string) : string :=
  match s with
  | "" => ""
  | String c s' => if Ascii.is_space c then non_space s' else String c (non_space s')
  end.

(** A text ends with a whitespace character. *)
Definition ends_with_space (s : string) : Prop :=
  ∃ front c, s = front +:+ String c "" ∧ Ascii.is_space c = true.

(** The selector that goes with a handler in [COMPLETIONS]. *)
Definition selector_of (cmpl : Completions) (h : handler) : string :=
  match h with
  | html_elements_attributes_handler => HTML_INSIDE_TAG cmpl
  | html_attributes_values_handler => HTML_INSIDE_TAG_ATTRIBUTE cmpl
  end.

(** A caret. *)
Definition caret_at (p : Z) : Region := Sublime.mkRegion p p.

(** A name is in a blacklist, for each kind of value that [in] accepts: an
    item of the list, a part of the string, a key of the dictionary. *)
Definition listed_in (name : string) (black_list : value) : Prop :=
  match black_list with
  | VList items => VStr name ∈ items
  | VStr s => ∃ front back, s = front +:+ name +:+ back
  | VDict entries => ∃ v, (name, v) ∈ entries
  | VNone | VBool _ | VInt _ => False
  end.

(** A text with its line breaks written as line feeds: [CR LF] and a lone
    [CR] become [LF]. *)
Fixpoint lf_breaks (s : string) : string :=
  match s with
  | "" => ""
  | String c s' =>
      if decide (c = Text.CR) then
        match s' with
        | String c' s'' =>
            if decide (c' = Text.LF) then String Text.LF (lf_breaks s'')
            else String Text.LF (lf_breaks s')
        | "" => String Text.LF ""
        end
      else String c (lf_breaks s')
  end.

(** A text without its last character when that is a line feed. *)
Fixpoint drop_final_lf (s : string) : string :=
  match s with
  | "" => ""
  | String c s' =>
      match s' with
      | "" => if decide (c = Text.LF) then "" else s
      | String _ _ => String c (drop_final_lf s')
      end
  end.

(** How often a character occurs in a text. *)
Fixpoint count_char (c : ascii) (s : string) : nat :=
  match s with
  | "" => 0%nat
  | String c' s' => ((if decide (c' = c) then 1 else 0) + count_char c s')%nat
  end.

(** A text that the editor inserts as it is when it is given as a snippet:
    a single line with no tab, no field mark [$] and no escape mark. *)
Fixpoint plain_text (s : string) : bool :=
  match s with
  | "" => true
  | String c s' =>
      negb (bool_decide (c = "$"%char) || bool_decide (c = "092"%char)
            || bool_decide (c = "009"%char)
            || bool_decide (c = Text.LF) || bool_decide (c = Text.CR))
      && plain_text s'
  end.

(** ** More samples *)

(** A view on [<a>] with the caret between [a] and [>]. *)
Definition open_tag_view : View :=
  {| Sublime.buffer := "<a>"; Sublime.sel := [Sublime.mkRegion 2 2];
     Sublime.undo_stack := [] |}.

(** A view without a selection. *)
Definition unselected_view : View :=
  {| Sublime.buffer := "<a >"; Sublime.sel := []; Sublime.undo_stack := [] |}.

(** Settings that switch the completions off. *)
Definition quiet_settings : gmap string value :=
  {[ "disable_completions" := VBool true ]}.

(** A view on two indented lines, the first with blanks behind the caret. *)
Definition blanks_view : View :=
  {| Sublime.buffer := "ab  " +:+ Text.newline +:+ "cd";
     Sublime.sel := [Sublime.mkRegion 2 2]; Sublime.undo_stack := [] |}.

(** A view on [<a b=..>], the dots standing for two double quotes, with the
    caret in front of the first quote, at offset 5. *)
Definition attribute_view : View :=
  {| Sublime.buffer := "<a b=" +:+ DQUOTE +:+ DQUOTE +:+ ">";
     Sublime.sel := [Sublime.mkRegion 5 5]; Sublime.undo_stack := [] |}.

(** Scopes of [attribute_view]: HTML everywhere, the tag outside the quoted
    value from 1 to 4 and at 7, the quoted value at 5 and 6. *)
Definition attribute_scopes (v : View) (pos : Z) (selector : string) : bool :=
  bool_decide (selector = EMMET_SCOPE sample_cmpl)
  || (bool_decide (selector = HTML_INSIDE_TAG sample_cmpl)
      && (((1 <=? pos) && (pos <=? 4)) || (pos =? 7)))
  || (bool_decide (selector = HTML_INSIDE_TAG_ATTRIBUTE sample_cmpl)
      && (5 <=? pos) && (pos <=? 6)).

(** Settings that take the attribute completions of elements out. *)
Definition blacklist_settings : gmap string value :=
  {[ "completions_blacklist" := VList [VStr "html_elements_attributes"] ]}.

(** Two lines, the first ended by [CR LF] and the second, indented, by
    [LF]. *)
Definition crlf_text : string :=
  "a" +:+ String Text.CR (String Text.LF "") +:+ "  b" +:+ Text.newline.

(** The call into the engine that running a callback makes, for a command
    object. *)
Definition call_of (s : Self) (t : task) : list engine_call :=
  match t with
  | RunUndo => []
  | InnerInsert abbr =>
      match cls s with
      | CommandsAsYouTypeBase => []
      | ExpandAsYouType => [PyExpandAbbreviationAsYouType abbr]
      | WrapAsYouType => [PyWrapAsYouType abbr (selection s)]
      end
  end.

(** * Facts and theorems *)

(** ** The definitions, run on small inputs *)

Example splitlines_mixed_breaks :
  Text.splitlines ("a" +:+ Text.newline +:+ String Text.CR Text.newline
                   +:+ "b" +:+ String Text.CR "c" +:+ Text.newline)
  = ["a"; ""; "b"; "c"].
Proof. reflexivity. Qed.

Example splitlines_empty : Text.splitlines "" = [].
Proof. reflexivity. Qed.

Example unindent_text_two_lines :
  Text.unindent_text ("    <li>a</li>" +:+ Text.newline +:+ "  <li>b</li>") "    "
  = "<li>a</li>" +:+ Text.newline +:+ "  <li>b</li>".
Proof. reflexivity. Qed.

Example get_line_padding_tab_and_spaces :
  Text.get_line_padding (TAB +:+ "  x y ") = TAB +:+ "  ".
Proof. reflexivity. Qed.

Example payload_of_user_settings :
  payload_of user_settings = {[ "snippets" := VDict [("css", VDict [])] ]}.
Proof. by vm_compute. Qed.

Example html_elements_attributes_of_a :
  html_elements_attributes sample_cmpl tag_view "" 3
  = [ ("href", "href" +:+ TAB +:+ "@href", "href=" +:+ DQUOTE +:+ "$1" +:+ DQUOTE);
      ("title", "title" +:+ TAB +:+ "@title", "title=" +:+ DQUOTE +:+ "$1" +:+ DQUOTE) ].
Proof. reflexivity. Qed.

Example blacklisted_handler_is_skipped :
  completion_handler tag_scopes sample_cmpl
    {[ "completions_blacklist" := VList [VStr "html_elements_attributes"] ]} tag_view
  = Some None.
Proof. reflexivity. Qed.

Example tab_expands_outside_tags :
  on_query_context tag_scopes sample_cmpl no_settings sample_engine
    {| Sublime.buffer := "<a >"; Sublime.sel := [Sublime.mkRegion 0 0];
       Sublime.undo_stack := [] |} "is_abbreviation"
  = Some (true, [PyRunAction "expand_abbreviation"]).
Proof. reflexivity. Qed.

Example tab_is_banned_by_scope :
  on_query_context tag_scopes sample_cmpl banned_settings sample_engine
    {| Sublime.buffer := "<a >"; Sublime.sel := [Sublime.mkRegion 0 0];
       Sublime.undo_stack := [] |} "is_abbreviation"
  = Some (false, []).
Proof. reflexivity. Qed.

Example expand_div_as_you_type :
  Sublime.buffer
    (view (exec sample_engine all_decode [Invoke; Change "div"; Tick]
             (new_world ExpandAsYouType empty_view)))
  = "<div></div>".
Proof. reflexivity. Qed.

Example wrap_foo_in_div :
  Sublime.buffer
    (view (exec sample_engine all_decode [Invoke; Change "div"; Tick]
             (new_world WrapAsYouType foo_view)))
  = "<div>foo</div>".
Proof. reflexivity. Qed.

Example cancel_undoes_the_preview :
  Sublime.buffer
    (view (exec sample_engine all_decode [Invoke; Change "div"; Tick; Cancel; Tick]
             (new_world WrapAsYouType foo_view)))
  = "foo".
Proof. reflexivity. Qed.

Example replace_substring_middle :
  Sublime.buffer (replace_substring all_decode foo_view 1 (Some 2) "XY" false).1
  = "fXYo".
Proof. reflexivity. Qed.

Example replace_substring_does_not_decode :
  replace_substring (λ _, false) foo_view 1 (Some 2) "XY" false
  = ({| Sublime.buffer := "foo"; Sublime.sel := [Sublime.mkRegion 1 2];
        Sublime.undo_stack := [("foo", [Sublime.mkRegion 0 3])] |}, false).
Proof. reflexivity. Qed.

Example insert_attribute_at_buffer_start :
  Sublime.buffer (EmmetInsertAttribute.run (Some "href") empty_view)
  = " href=" +:+ DQUOTE +:+ "$1" +:+ DQUOTE.
Proof. reflexivity. Qed.

Example insert_attribute_without_selection :
  EmmetInsertAttribute.run (Some "href") unselected_view = unselected_view.
Proof. reflexivity. Qed.

Example erase_trailing_blanks :
  Sublime.buffer (run_command all_decode blanks_view ("x" +:+ Text.newline)).1
  = "abx" +:+ Text.newline +:+ Text.newline +:+ "cd".
Proof. reflexivity. Qed.

(** ** The text helpers *)

(** [H] says that a value is in a list of other values: there is no such [H]. *)
Ltac not_in_list H :=
  repeat (apply elem_of_cons in H as [H|H]; [discriminate|]);
  by apply elem_of_nil in H.

Section text_facts.
Import Text.

Lemma app_String c (s t : string) : String c s +:+ t = String c (s +:+ t).
Proof. reflexivity. Qed.

Lemma startswith_app pad rest : startswith (pad +:+ rest) pad = true.
Proof.
  induction pad as [|p pad IH]; [done|].
  change (String p pad +:+ rest) with (String p (pad +:+ rest)).
  cbn. by rewrite decide_True.
Qed.

Lemma startswith_true line pad :
  startswith line pad = true →
  line = pad +:+ slice_from (String.length pad) line.
Proof.
  revert line. induction pad as [|p pad IH]; intros line H; [done|].
  destruct line as [|c line]; [done|].
  cbn in H. case_decide; [|done]. subst c.
  change (String p line = String p (pad +:+ slice_from (String.length pad) line)).
  f_equal. by apply IH.
Qed.


Lemma slice_from_app pad rest :
  slice_from (String.length pad) (pad +:+ rest) = rest.
Proof. induction pad as [|p pad IH]; [done|]. exact IH. Qed.


Lemma unindent_loop_map pad fuel : ∀ i (lines : list string),
  (length lines ≤ i + fuel)%nat →
  unindent_loop pad fuel i lines = take i lines ++ (strip_pad pad <$> drop i lines).
Proof.
  induction fuel as [|fuel IH]; intros i lines Hlen; cbn [unindent_loop].
  - rewrite take_ge, drop_ge by lia. by rewrite app_nil_r.
  - destruct (lines !! i) as [line|] eqn:Hi.
    + assert (Hins : (if startswith line pad
                      then <[i := slice_from (String.length pad) line]> lines
                      else lines) = <[i := strip_pad pad line]> lines).
      { unfold strip_pad. destruct (startswith line pad); [done|].
        by rewrite list_insert_id. }
      rewrite Hins, IH by (rewrite length_insert; lia).
      pose proof (lookup_lt_Some _ _ _ Hi) as Hlt.
      rewrite (take_S_r _ _ (strip_pad pad line))
        by (by rewrite list_lookup_insert_eq).
      rewrite take_insert_ge by lia.
      rewrite drop_insert_lt by lia.
      rewrite (drop_S _ _ _ Hi). cbn. by rewrite <- app_assoc.
    + apply lookup_ge_None in Hi.
      rewrite take_ge, drop_ge by lia. by rewrite app_nil_r.
Qed.

Lemma unindent_text_map text pad :
  unindent_text text pad = join newline (strip_pad pad <$> splitlines text).
Proof.
  unfold unindent_text. by rewrite unindent_loop_map by lia.
Qed.

Lemma has_break_rev_app s1 s2 :
  has_break (String.rev_app s1 s2) = has_break s1 || has_break s2.
Proof.
  revert s2. induction s1 as [|c s1 IH]; intros s2; [done|].
  cbn [String.rev_app has_break]. rewrite IH. cbn [has_break].
  by destruct (bool_decide (c = LF)), (bool_decide (c = CR)), (has_break s1),
    (has_break s2).
Qed.

Lemma has_break_rev s : has_break (String.rev s) = has_break s.
Proof. unfold String.rev. rewrite has_break_rev_app. cbn. apply orb_false_r. Qed.

(** No line that [splitlines] reports holds a line break. *)
Lemma splitlines_go_no_break s : ∀ cur,
  has_break cur = false →
  Forall (λ line, has_break line = false) (splitlines_go cur s).
Proof.
  induction s as [|c s IH]; intros cur Hcur; cbn [splitlines_go].
  - destruct cur; constructor; [|constructor]. by rewrite has_break_rev.
  - assert (Hrev : has_break (String.rev cur) = false) by by rewrite has_break_rev.
    pose proof (IH "" eq_refl) as Hrest.
    destruct (decide (c = LF)) as [->|Hlf]; [by constructor|].
    destruct (decide (c = CR)) as [->|Hcr].
    + destruct s as [|c' s']; [by constructor|].
      destruct (decide (c' = LF)) as [->|Hlf']; [|by constructor].
      constructor; [done|]. cbn [splitlines_go] in Hrest.
      rewrite decide_True in Hrest by done. by inversion Hrest.
    + apply IH. cbn [has_break].
      by rewrite Hcur, !bool_decide_eq_false_2.
Qed.

Lemma rev_app_app s1 s2 t :
  String.rev_app s1 s2 +:+ t = String.rev_app s1 (s2 +:+ t).
Proof. revert s2. induction s1 as [|c s1 IH]; intros s2; [done|]. apply IH. Qed.

(** A text without a line break is its own single line. *)
Lemma splitlines_go_one_line s : ∀ cur,
  has_break s = false →
  splitlines_go cur s =
    match String.rev cur +:+ s with "" => [] | line => [line] end.
Proof.
  induction s as [|c s IH]; intros cur Hs; cbn [splitlines_go].
  - assert (String.rev cur +:+ "" = String.rev cur) as ->.
    { generalize (String.rev cur). intros t. induction t as [|? ? IHt]; [done|].
      rewrite app_String. by rewrite IHt. }
    destruct cur as [|c cur]; [done|].
    assert (∀ acc, String.rev_app cur (String c acc) ≠ "") as Hne.
    { clear. revert c. induction cur as [|c' cur IH]; intros c acc; [done|]. apply IH. }
    unfold String.rev. cbn [String.rev_app].
    specialize (Hne ""). by destruct (String.rev_app cur (String c "")).
  - cbn [has_break] in Hs. apply orb_false_iff in Hs as [Hc Hs].
    apply orb_false_iff in Hc as [Hlf Hcr].
    apply bool_decide_eq_false in Hlf, Hcr.
    destruct (decide (c = LF)); [done|]. destruct (decide (c = CR)); [done|].
    rewrite (IH _ Hs).
    unfold String.rev. cbn [String.rev_app]. rewrite !rev_app_app. reflexivity.
Qed.

Lemma splitlines_one_line text :
  has_break text = false → text ≠ "" → splitlines text = [text].
Proof.
  intros Hb Hne. unfold splitlines. rewrite (splitlines_go_one_line _ _ Hb).
  by destruct text.
Qed.

Lemma leading_space_split line :
  ∃ rest, line = leading_space line +:+ rest
          ∧ all_space (leading_space line) = true
          ∧ (rest = "" ∨ ∃ c rest', rest = String c rest' ∧ Ascii.is_space c = false).
Proof.
  induction line as [|c line (rest & Hl & Hs & Hr)].
  - exists "". cbn. auto.
  - cbn [leading_space]. destruct (Ascii.is_space c) eqn:Hc.
    + exists rest. rewrite app_String. cbn. rewrite Hc, Hs.
      split; [by f_equal|]. auto.
    + exists (String c line). cbn. split; [done|]. split; [done|]. right. eauto.
Qed.

Lemma get_line_padding_leading line : get_line_padding line = leading_space line.
Proof.
  unfold get_line_padding, re_match_space.
  by destruct (leading_space line).
Qed.


End text_facts.


Lemma payload_loop_lookup settings ks : ∀ payload k,
  payload_loop settings ks payload !! k =
    if bool_decide (k ∈ ks) && truthy (settings_get settings k VNone)
    then Some (settings_get settings k VNone)
    else payload !! k.
Proof.
  induction ks as [|k0 ks IH]; intros payload k; cbn [payload_loop].
  - rewrite bool_decide_eq_false_2; [done | apply not_elem_of_nil].
  - rewrite IH. destruct (decide (k = k0)) as [->|Hne].
    + rewrite (bool_decide_eq_true_2 (k0 ∈ k0 :: ks)) by (apply elem_of_cons; by left).
      destruct (truthy (settings_get settings k0 VNone)) eqn:Ht.
      * rewrite lookup_insert_eq, !andb_true_r. by destruct (bool_decide _).
      * by rewrite !andb_false_r.
    + assert (bool_decide (k ∈ k0 :: ks) = bool_decide (k ∈ ks)) as ->.
      { apply bool_decide_ext. rewrite elem_of_cons. tauto. }
      destruct (bool_decide (k ∈ ks) && _); [done|].
      destruct (truthy (settings_get settings k0 VNone)); [|done].
      by rewrite lookup_insert_ne.
Qed.


(** C5. The payload [update_settings] hands to the engine holds exactly the
    keys among snippets, preferences, syntaxProfiles and profiles whose
    settings value is present and true as a Python condition (not empty),
    each with its settings value; no other settings key is forwarded and a
    key that is missing (or empty) is absent from the payload. *)
Theorem update_settings_payload_keys :
  ∀ (json_dumps : gmap string value → string) (settings : gmap string value),
    update_settings json_dumps settings =
      [ SetExtPath (settings_get settings "extensions_path" VNone);
        Reset;
        LoadUserData (json_dumps (payload_of settings)) ]
    ∧ (∀ k v, payload_of settings !! k = Some v ↔
         k ∈ ["snippets"; "preferences"; "syntaxProfiles"; "profiles"]
         ∧ settings !! k = Some v ∧ truthy v = true)
    ∧ (∀ k, k ∉ ["snippets"; "preferences"; "syntaxProfiles"; "profiles"] →
         payload_of settings !! k = None)
    ∧ (∀ k, settings !! k = None → payload_of settings !! k = None).
Proof.
  intros json_dumps settings.
  assert (Hchar : ∀ k v, payload_of settings !! k = Some v ↔
            k ∈ keys ∧ settings !! k = Some v ∧ truthy v = true).
  { intros k v. unfold payload_of. rewrite payload_loop_lookup, lookup_empty.
    unfold settings_get. destruct (decide (k ∈ keys)) as [Hin|Hin].
    - rewrite (bool_decide_eq_true_2 _ Hin). cbn [andb].
      destruct (settings !! k) as [d|] eqn:Hd; cbn [truthy].
      + destruct (truthy d) eqn:Ht.
        * split; [intros [= <-]; done | intros (_ & [= <-] & _); done].
        * split; [done | intros (_ & [= <-] & ?); congruence].
      + split; [done | intros (_ & ? & _); done].
    - rewrite (bool_decide_eq_false_2 _ Hin). cbn [andb].
      split; [done | intros (? & _); done]. }
  split; [done|]. split; [exact Hchar|]. split.
  - intros k Hk. apply eq_None_not_Some. intros [v Hv].
    apply Hchar in Hv as (Hin & _). by apply Hk.
  - intros k Hk. apply eq_None_not_Some. intros [v Hv].
    apply Hchar in Hv as (_ & Hv & _). congruence.
Qed.

Lemma update_settings_payload_keys_witness :
  payload_of user_settings !! "snippets" = Some (VDict [("css", VDict [])])
  ∧ payload_of user_settings !! "profiles" = None
  ∧ payload_of user_settings !! "theme" = None
  ∧ payload_of user_settings !! "preferences" = None.
Proof.
  destruct (update_settings_payload_keys (λ _, "") user_settings)
    as (_ & Hin & Hother & Hmissing).
  split; [|split; [|split]].
  - apply Hin. split; [constructor|]. split; reflexivity.
  - destruct (payload_of user_settings !! "profiles") as [v|] eqn:Hv; [|done].
    apply Hin in Hv as (_ & Hv & Ht). vm_compute in Hv.
    injection Hv as <-. discriminate Ht.
  - apply Hother. intros H. not_in_list H.
  - apply Hmissing. reflexivity.
Defined.

(** ** The completion handlers *)

Section tab_expand_facts.
Context (match_selector : View → Z → string → bool).
Context (cmpl : Completions).
Context (settings : gmap string value).
Context (js : Engine).

Lemma caret_head view r :
  head (Sublime.sel view) = Some r → caret view = Some (Sublime.b r).
Proof. unfold caret. by intros ->. Qed.

Lemma py_in_container name black_list :
  is_container black_list = true →
  py_in name black_list = Some (default false (py_in name black_list)).
Proof. by destruct black_list. Qed.

Lemma completion_loop_find black_list view pos pairs :
  is_container black_list = true →
  completion_loop match_selector black_list view pos pairs =
    Some (snd <$> List.find (qualifies match_selector black_list view pos) pairs).
Proof.
  intros Hc. induction pairs as [|[sub_selector h] rest IH]; [done|].
  cbn [completion_loop List.find]. unfold qualifies at 1. cbn [fst snd].
  rewrite (py_in_container _ _ Hc). cbn.
  destruct (default false (py_in (handler_name h) black_list)); cbn; [exact IH|].
  by destruct (match_selector view pos sub_selector
               || match_selector view (pos - 1) sub_selector).
Qed.

End tab_expand_facts.

(** What [in] computes, for each kind of blacklist. *)
Lemma is_str_true name v : is_str name v = true ↔ v = VStr name.
Proof.
  destruct v; cbn; try (split; [done | discriminate]).
  rewrite bool_decide_eq_true. split; [by intros -> | by intros [= ->]].
Qed.

Lemma str_contains_parts (s name : string) :
  str_contains s name = true ↔ ∃ front back, s = front +:+ name +:+ back.
Proof.
  split.
  - induction s as [|c s IH]; cbn [str_contains]; intros H.
    + rewrite orb_false_r in H. apply startswith_true in H.
      by exists "", (Text.slice_from (String.length name) "").
    + apply orb_true_iff in H as [H|H].
      * apply startswith_true in H.
        by exists "", (Text.slice_from (String.length name) (String c s)).
      * destruct (IH H) as (front & back & ->). by exists (String c front), back.
  - intros (front & back & ->). induction front as [|c front IH].
    + change ("" +:+ name +:+ back) with (name +:+ back).
      destruct (name +:+ back) eqn:E; cbn [str_contains];
        rewrite <- E, startswith_app; done.
    + rewrite app_String. cbn [str_contains]. rewrite IH. apply orb_true_r.
Qed.

Lemma py_in_listed name black_list :
  is_container black_list = true →
  ∃ found : bool,
    py_in name black_list = Some found ∧ (found = true ↔ listed_in name black_list).
Proof.
  destruct black_list as [| | |s|items|entries]; try done; intros _;
    cbn [py_in listed_in]; eexists; (split; [reflexivity|]).
  - apply str_contains_parts.
  - rewrite existsb_exists. split.
    + intros (v & Hin & Hv). apply is_str_true in Hv as ->.
      by apply list_elem_of_In.
    + intros Hin. exists (VStr name). split; [by apply list_elem_of_In|].
      by apply is_str_true.
  - rewrite existsb_exists. split.
    + intros ([k v] & Hin & Hk). apply bool_decide_eq_true in Hk. cbn in Hk.
      subst k. exists v. by apply list_elem_of_In.
    + intros (v & Hin). exists (name, v). split; [by apply list_elem_of_In|].
      by apply bool_decide_eq_true.
Qed.

(** C6. At every caret position and for every blacklist that [in] accepts,
    [completion_handler] returns the element-attribute handler when the name
    [html_elements_attributes] is not in the blacklist and HTML_INSIDE_TAG
    matches at the caret or one position before it; failing that, the
    attribute-value handler when the name [html_attributes_values] is not in
    the blacklist and HTML_INSIDE_TAG_ATTRIBUTE matches at the caret or one
    position before it; and None when neither pair qualifies.  A name is in
    the blacklist as an item of a list, a part of a string or a key of a
    dictionary. *)
Theorem completion_handler_first_qualifying :
  ∀ (match_selector : View → Z → string → bool) (cmpl : Completions)
    (settings : gmap string value) (view : View) (r : Region),
    head (Sublime.sel view) = Some r →
    is_container (settings_get settings "completions_blacklist" (VList [])) = true →
    ∃ elements_listed values_listed : bool,
      (elements_listed = true ↔
         listed_in "html_elements_attributes"
           (settings_get settings "completions_blacklist" (VList [])))
      ∧ (values_listed = true ↔
           listed_in "html_attributes_values"
             (settings_get settings "completions_blacklist" (VList [])))
      ∧ completion_handler match_selector cmpl settings view =
          Some
            (if negb elements_listed
                && (match_selector view (Sublime.b r) (HTML_INSIDE_TAG cmpl)
                    || match_selector view (Sublime.b r - 1) (HTML_INSIDE_TAG cmpl))
             then Some html_elements_attributes_handler
             else if negb values_listed
                     && (match_selector view (Sublime.b r)
                           (HTML_INSIDE_TAG_ATTRIBUTE cmpl)
                         || match_selector view (Sublime.b r - 1)
                              (HTML_INSIDE_TAG_ATTRIBUTE cmpl))
             then Some html_attributes_values_handler
             else None).
Proof.
  intros ms cmpl settings view r Hr Hc.
  destruct (py_in_listed "html_elements_attributes" _ Hc) as (el & Hel & Hel').
  destruct (py_in_listed "html_attributes_values" _ Hc) as (vl & Hvl & Hvl').
  exists el, vl. split; [done|]. split; [done|].
  unfold completion_handler. rewrite (caret_head _ _ Hr).
  cbn [mbind option_bind COMPLETIONS completion_loop handler_name].
  rewrite Hel, Hvl. cbn [mbind option_bind].
  destruct el, vl; cbn [negb andb];
    repeat match goal with |- context [ms ?v ?p ?s || ms ?v ?q ?s] =>
      destruct (ms v p s || ms v q s) end; reflexivity.
Qed.

Lemma completion_handler_first_qualifying_witness :
  completion_handler attribute_scopes sample_cmpl blacklist_settings attribute_view
    = Some (Some html_attributes_values_handler).
Proof.
  destruct (completion_handler_first_qualifying attribute_scopes sample_cmpl
              blacklist_settings attribute_view (Sublime.mkRegion 5 5)
              eq_refl eq_refl) as (el & vl & Hel & Hvl & ->).
  destruct el.
  - destruct vl; [|reflexivity].
    apply proj1 in Hvl. specialize (Hvl eq_refl). not_in_list Hvl.
  - apply proj2 in Hel. discriminate Hel. apply list_elem_of_here.
Defined.

(** C7. [on_query_completions] returns the empty list when the caret is not in
    the Emmet scope or [disable_completions] is set.  Otherwise, when the
    handler for the caret is the element-attribute handler, it returns
    exactly one entry per attribute that HTML_ELEMENTS_ATTRIBUTES lists for
    the tag name found at the caret, in the table's order: the attribute,
    its label and the snippet that sets it; an unknown or absent tag gives
    the empty list.  With the attribute-value handler it returns the values
    that HTML_ATTRIBUTES_VALUES lists for the attribute found at the caret,
    and without a handler the empty list. *)
Theorem on_query_completions_from_table :
  ∀ (match_selector : View → Z → string → bool) (cmpl : Completions)
    (settings : gmap string value) (view : View) (prefix : string) (r : Region),
    head (Sublime.sel view) = Some r →
    (match_selector view (Sublime.b r) (EMMET_SCOPE cmpl) = false
     ∨ truthy (settings_get settings "disable_completions" (VBool false)) = true →
     on_query_completions match_selector cmpl settings view prefix = Some [])
    ∧ (match_selector view (Sublime.b r) (EMMET_SCOPE cmpl) = true →
       truthy (settings_get settings "disable_completions" (VBool false)) = false →
       (completion_handler match_selector cmpl settings view
          = Some (Some html_elements_attributes_handler) →
        (∀ tag attrs,
           find_tag_name cmpl view (Sublime.b r) = Some tag →
           HTML_ELEMENTS_ATTRIBUTES cmpl !! tag = Some attrs →
           on_query_completions match_selector cmpl settings view prefix =
             Some ((λ v, (v, v +:+ TAB +:+ "@" +:+ v,
                          v +:+ "=" +:+ DQUOTE +:+ "$1" +:+ DQUOTE)) <$> attrs))
        ∧ ((find_tag_name cmpl view (Sublime.b r) = None
            ∨ ∃ tag, find_tag_name cmpl view (Sublime.b r) = Some tag
                     ∧ HTML_ELEMENTS_ATTRIBUTES cmpl !! tag = None) →
           on_query_completions match_selector cmpl settings view prefix = Some []))
       ∧ (completion_handler match_selector cmpl settings view
            = Some (Some html_attributes_values_handler) →
          (∀ attr values,
             find_attribute_name cmpl view (Sublime.b r) = Some attr →
             HTML_ATTRIBUTES_VALUES cmpl !! attr = Some values →
             on_query_completions match_selector cmpl settings view prefix =
               Some ((λ v, (v, v +:+ TAB +:+ "@=" +:+ v, v)) <$> values))
          ∧ ((find_attribute_name cmpl view (Sublime.b r) = None
              ∨ ∃ attr, find_attribute_name cmpl view (Sublime.b r) = Some attr
                        ∧ HTML_ATTRIBUTES_VALUES cmpl !! attr = None) →
             on_query_completions match_selector cmpl settings view prefix = Some []))
       ∧ (completion_handler match_selector cmpl settings view = Some None →
          on_query_completions match_selector cmpl settings view prefix = Some [])).
Proof.
  intros ms cmpl settings view prefix r Hr.
  assert (Hrun : ms view (Sublime.b r) (EMMET_SCOPE cmpl) = true →
    truthy (settings_get settings "disable_completions" (VBool false)) = false →
    ∀ found, completion_handler ms cmpl settings view = Some found →
    on_query_completions ms cmpl settings view prefix =
      Some match found with
           | Some h => call_handler cmpl h view prefix (Sublime.b r)
           | None => []
           end).
  { intros Hs Hd found Hh. unfold on_query_completions, correct_syntax.
    rewrite (caret_head _ _ Hr). cbn [mbind option_bind].
    rewrite Hs, Hd, Hh. cbn. by destruct found. }
  split.
  { intros Hguard. unfold on_query_completions, correct_syntax.
    rewrite (caret_head _ _ Hr). cbn [mbind option_bind].
    destruct Hguard as [-> | ->]; [done|]. by rewrite orb_true_r. }
  intros Hs Hd. split; [|split].
  - intros Hh. rewrite (Hrun Hs Hd _ Hh).
    cbn [call_handler]. unfold html_elements_attributes. split.
    + intros tag attrs Htag Hattrs. by rewrite Htag; cbn; rewrite Hattrs.
    + intros [-> | (tag & -> & Hn)]; [done|]. cbn. by rewrite Hn.
  - intros Hh. rewrite (Hrun Hs Hd _ Hh).
    cbn [call_handler]. unfold html_attributes_values. split.
    + intros attr values Hattr Hvalues. by rewrite Hattr; cbn; rewrite Hvalues.
    + intros [-> | (attr & -> & Hn)]; [done|]. cbn. by rewrite Hn.
  - intros Hh. by rewrite (Hrun Hs Hd _ Hh).
Qed.

Lemma on_query_completions_from_table_witness :
  on_query_completions tag_scopes sample_cmpl no_settings tag_view "hr" =
    Some [ ("href", "href" +:+ TAB +:+ "@href", "href=" +:+ DQUOTE +:+ "$1" +:+ DQUOTE);
           ("title", "title" +:+ TAB +:+ "@title",
            "title=" +:+ DQUOTE +:+ "$1" +:+ DQUOTE) ].
Proof.
  pose proof (on_query_completions_from_table tag_scopes sample_cmpl no_settings
                tag_view "hr" (Sublime.mkRegion 3 3) eq_refl) as (_ & Hrun).
  destruct (Hrun eq_refl eq_refl) as (Helements & _).
  destruct (Helements eq_refl) as (Hentries & _).
  exact (Hentries "a" ["href"; "title"] eq_refl eq_refl).
Defined.

(** ** The Tab key context *)

Lemma banned_check (match_selector : View → Z → string → bool) view r (v : value) :
  head (Sublime.sel view) = Some r →
  (truthy v = true → is_Some (as_str v)) →
  (if truthy v
   then pos ← caret view; selector ← as_str v; Some (match_selector view pos selector)
   else Some false)
  = Some match v with
         | VStr selector =>
             Text.str_truthy selector && match_selector view (Sublime.b r) selector
         | _ => false
         end.
Proof.
  intros Hr Hstr. rewrite (caret_head _ _ Hr). cbn [mbind option_bind].
  destruct v as [| | |selector| |]; cbn [truthy as_str] in *.
  4: by destruct (Text.str_truthy selector).
  all: try done.
  all: match goal with |- (if ?c then _ else _) = _ => destruct c eqn:E end;
    [destruct (Hstr eq_refl) as [? [=]] | done].
Qed.

(** C10, as amended.  [on_query_context] returns False without calling the
    engine for every key other than is_abbreviation, for every event where
    completions are enabled, the caret is in the Emmet scope and a completion
    handler applies at the caret, and for every event where the caret matches
    the selector of disable_tab_abbreviations_for_scopes; the expand action
    is invoked, once, exactly when none of these three guards fires, and its
    result is what is returned. *)
Theorem on_query_context_guards :
  ∀ (match_selector : View → Z → string → bool) (cmpl : Completions)
    (settings : gmap string value) (js : Engine) (view : View) (key : string),
    (key ≠ "is_abbreviation" →
       on_query_context match_selector cmpl settings js view key = Some (false, []))
    ∧ (∀ (r : Region) (found : option handler),
       head (Sublime.sel view) = Some r →
       completion_handler match_selector cmpl settings view = Some found →
       (truthy (settings_get settings "disable_tab_abbreviations_for_scopes" (VStr ""))
          = true →
        is_Some (as_str (settings_get settings "disable_tab_abbreviations_for_scopes"
                           (VStr "")))) →
       let completing :=
         negb (truthy (settings_get settings "disable_completions" (VBool false)))
         && match_selector view (Sublime.b r) (EMMET_SCOPE cmpl)
         && bool_decide (is_Some found) in
       let banned :=
         match settings_get settings "disable_tab_abbreviations_for_scopes" (VStr "") with
         | VStr selector =>
             Text.str_truthy selector && match_selector view (Sublime.b r) selector
         | _ => false
         end in
       (completing = true →
          on_query_context match_selector cmpl settings js view key = Some (false, []))
       ∧ (banned = true →
          on_query_context match_selector cmpl settings js view key = Some (false, []))
       ∧ (key = "is_abbreviation" → completing = false → banned = false →
          on_query_context match_selector cmpl settings js view key =
            Some (pyRunAction js "expand_abbreviation",
                  [PyRunAction "expand_abbreviation"]))
       ∧ (∀ result, on_query_context match_selector cmpl settings js view key
                    = Some (result, [PyRunAction "expand_abbreviation"]) →
          key = "is_abbreviation" ∧ completing = false ∧ banned = false)).
Proof.
  intros ms cmpl settings js view key. split.
  { intros Hk. unfold on_query_context. by rewrite bool_decide_eq_false_2. }
  intros r found Hr Hfound Hstr completing banned.
  assert (Hrun : on_query_context ms cmpl settings js view key =
            if negb (bool_decide (key = "is_abbreviation")) || completing || banned
            then Some (false, [])
            else Some (pyRunAction js "expand_abbreviation",
                       [PyRunAction "expand_abbreviation"])).
  { unfold on_query_context, correct_syntax, completing, banned.
    destruct (bool_decide (key = "is_abbreviation")); cbn [negb orb]; [|done].
    rewrite Hfound. pose proof (caret_head _ _ Hr) as Hc. rewrite Hc at 1.
    cbn [mbind option_bind].
    destruct (truthy (settings_get settings "disable_completions" (VBool false)));
      cbn [negb andb orb mbind option_bind].
    2: destruct (ms view (Sublime.b r) (EMMET_SCOPE cmpl));
         cbn [negb andb orb mbind option_bind].
    2: destruct (bool_decide (is_Some found)); cbn [orb]; [done|].
    all: rewrite (banned_check ms view r _ Hr Hstr); cbn [mbind option_bind].
    all: by match goal with |- (if ?c then _ else _) = _ => destruct c end. }
  rewrite Hrun. split; [|split; [|split]].
  - intros ->. by rewrite orb_true_r.
  - intros ->. by rewrite orb_true_r.
  - intros Hk -> ->. by rewrite bool_decide_eq_true_2.
  - intros result Hres.
    destruct (bool_decide_reflect (key = "is_abbreviation")) as [Hk|Hk];
      [|discriminate Hres].
    destruct completing; [discriminate Hres|].
    destruct banned; [discriminate Hres|]. done.
Qed.

Lemma on_query_context_guards_witness :
  on_query_context tag_scopes sample_cmpl no_settings sample_engine tag_view
    "is_abbreviation" = Some (false, []).
Proof.
  pose proof (proj2 (on_query_context_guards tag_scopes sample_cmpl no_settings
                       sample_engine tag_view "is_abbreviation")
                (Sublime.mkRegion 3 3) (Some html_elements_attributes_handler)
                eq_refl eq_refl) as H.
  cbn zeta in H.
  refine (proj1 (H _) eq_refl).
  intros [=].
Defined.

(** C10 as it was stated fails: with completions enabled and a completion
    handler applying one position before the caret, the expand action is
    still invoked when the caret itself is outside the Emmet scope (here,
    just behind the [<script>] tag). *)
Lemma on_query_context_handler_outside_scope :
  truthy (settings_get no_settings "disable_completions" (VBool false)) = false
  ∧ completion_handler script_scopes sample_cmpl no_settings script_view
    = Some (Some html_elements_attributes_handler)
  ∧ correct_syntax script_scopes sample_cmpl script_view = Some false
  ∧ on_query_context script_scopes sample_cmpl no_settings sample_engine
      script_view "is_abbreviation"
    = Some (true, [PyRunAction "expand_abbreviation"]).
Proof. repeat split. Qed.

(** ** The as-you-type commands *)

Section as_you_type_facts.
Context (js : Engine) (decodes : string → bool).

Lemma filter_input_frame w abbr :
  self (filter_input js w abbr).2 = self w
  ∧ view (filter_input js w abbr).2 = view w
  ∧ timers (filter_input js w abbr).2 = timers w.
Proof. unfold filter_input. by destruct (cls (self w)). Qed.

(** [inner_insert], field by field. *)
Lemma inner_insert_fields abbr w :
  let opened := set_view w (Sublime.begin_edit (view w)) in
  let filtered := filter_input js opened abbr in
  let done := run_command decodes (Sublime.begin_edit (view w)) (or_empty filtered.1) in
  inner_insert js decodes abbr w =
    {| self := if done.2
               then {| cls := cls (self w); erase := true;
                       selection := selection (self w) |}
               else self w;
       view := done.1;
       timers := timers w;
       calls := calls filtered.2 |}.
Proof.
  unfold inner_insert. cbn zeta.
  pose proof (filter_input_frame (set_view w (Sublime.begin_edit (view w))) abbr)
    as (Hs & Hv & Ht).
  destruct (filter_input js (set_view w (Sublime.begin_edit (view w))) abbr)
    as [filtered w2]. cbn [fst snd] in *. rewrite Hv. cbn [set_view view].
  destruct (run_command decodes (Sublime.begin_edit (view w)) (or_empty filtered))
    as [v3 returned]. cbn [fst snd].
  destruct w2 as [s2 v2 t2 c2]. cbn in Hs, Ht. subst s2 t2.
  by destruct returned.
Qed.

Lemma timers_run_task t w : timers (run_task js decodes t w) = timers w.
Proof.
  destruct t as [|abbr]; [done|]. cbn [run_task].
  by rewrite inner_insert_fields.
Qed.

Lemma tick_idle w : timers w = [] → tick js decodes w = w.
Proof. unfold tick. by intros ->. Qed.

Lemma timers_setup w : timers (setup js w) = timers w.
Proof.
  unfold setup. destruct (cls (self w)); try done.
  by destruct (pyCaptureWrappingRange js (view w)) as [[r0 r1]|].
Qed.

(** An event other than a tick leaves the waiting callbacks in place and
    puts its own behind them. *)
Lemma timers_handle_append w e :
  e ≠ Tick →
  timers (handle js decodes w e) =
    timers w ++ drop (length (timers w)) (timers (handle js decodes w e)).
Proof.
  intros He. destruct e as [|abbr| | |v]; cbn [handle]; try done.
  - unfold run. cbn [set_erase set_self timers]. rewrite timers_setup.
    by rewrite drop_all, app_nil_r.
  - unfold insert, undo.
    destruct (negb (Text.str_truthy abbr) && erase (self w)), (erase (self w));
      cbn [set_erase set_self set_timeout timers];
      rewrite <- ?app_assoc, ?drop_app_length, ?drop_all, ?app_nil_r; done.
  - unfold undo. destruct (erase (self w)); cbn [set_timeout timers].
    + by rewrite drop_app_length.
    + by rewrite drop_all, app_nil_r.
  - cbn [set_view timers]. by rewrite drop_all, app_nil_r.
Qed.

(** Callbacks run in the order in which they were handed to the editor:
    what has run, followed by what still waits, is what waited at the start
    followed by what was issued since. *)
Lemma callbacks_run_in_issue_order trace : ∀ w,
  ran js decodes trace w ++ timers (exec js decodes trace w)
  = timers w ++ issued js decodes trace w.
Proof.
  induction trace as [|e rest IH]; intros w; cbn [ran issued exec foldl].
  - by rewrite app_nil_r.
  - fold (exec js decodes rest (handle js decodes w e)).
    rewrite <- app_assoc, IH.
    assert (He : e = Tick ∨ e ≠ Tick) by (destruct e; auto).
    destruct He as [->|He].
    + cbn [handle app]. unfold tick.
      destruct (timers w) as [|t ts] eqn:Hw; cbn [head option_list app].
      * by rewrite Hw.
      * by rewrite timers_run_task.
    + rewrite (timers_handle_append w e He) at 1.
      rewrite <- app_assoc.
      destruct e as [|abbr| | |v]; cbn [app]; try done.
      cbn [handle set_view timers]. by rewrite drop_all.
Qed.

End as_you_type_facts.

(** *** Lengths of the pieces of a buffer *)

Lemma slice_from_length_le e (s : string) :
  (String.length (Text.slice_from e s) ≤ String.length s)%nat.
Proof.
  revert s. induction e as [|e IH]; intros [|c s]; cbn; try lia.
  specialize (IH s). lia.
Qed.

Lemma cut_length_le (buf : string) : ∀ s e : nat,
  (s ≤ e)%nat →
  (String.length (String.substring 0 s buf) + String.length (Text.slice_from e buf)
   ≤ String.length buf)%nat.
Proof.
  induction buf as [|c buf IH]; intros s e Hse.
  - destruct s, e; cbn; lia.
  - destruct s as [|s]; cbn [String.substring String.length].
    + pose proof (slice_from_length_le e (String c buf)). cbn in *. lia.
    + destruct e as [|e]; [lia|]. cbn [Text.slice_from].
      specialize (IH s e). lia.
Qed.

Lemma app_length_string (s t : string) :
  String.length (s +:+ t) = (String.length s + String.length t)%nat.
Proof. induction s as [|c s IH]; [done|]. rewrite app_String. cbn. by rewrite IH. Qed.




(** *** One change of the panel's text *)

Section one_change.
Context (js : Engine) (decodes : string → bool).

(** [insert] when it does not take the early return. *)
Lemma insert_schedules w abbr :
  abbr ≠ "" ∨ erase (self w) = false →
  insert abbr w =
    {| self := self w; view := view w;
       timers := timers w
                 ++ (if erase (self w) then [RunUndo] else [])
                 ++ [InnerInsert abbr];
       calls := calls w |}.
Proof.
  intros Hcase. unfold insert, undo.
  assert (Hgo : negb (Text.str_truthy abbr) && erase (self w) = false).
  { destruct Hcase as [Habbr | ->]; [by destruct abbr | apply andb_false_r]. }
  rewrite Hgo. destruct (erase (self w)); unfold set_timeout; cbn.
  - by rewrite <- app_assoc.
  - done.
Qed.

(** [insert] when it takes the early return. *)
Lemma insert_only_undoes w :
  erase (self w) = true →
  insert "" w =
    {| self := {| cls := cls (self w); erase := false;
                  selection := selection (self w) |};
       view := view w;
       timers := timers w ++ [RunUndo];
       calls := calls w |}.
Proof. intros He. unfold insert, undo. by rewrite He. Qed.

(** A change and the run of its callbacks: undo what is on record, then
    apply. *)
Lemma change_then_ticks w abbr :
  abbr ≠ "" ∨ erase (self w) = false →
  timers w = [] →
  exec js decodes [Change abbr; Tick; Tick] w =
    inner_insert js decodes abbr (set_view w (before_apply w)).
Proof.
  intros Hcase Hempty.
  change (exec js decodes [Change abbr; Tick; Tick] w)
    with (exec js decodes [Tick; Tick] (insert abbr w)).
  rewrite (insert_schedules w abbr Hcase), Hempty. unfold before_apply.
  destruct w as [[c e s] v t cs]. cbn in Hempty. subst t.
  destruct e; cbn [exec foldl handle self erase app view set_view].
  - unfold tick at 2. cbn [timers run_task set_view view self calls].
    unfold tick. cbn [timers run_task]. reflexivity.
  - unfold tick at 2. cbn [timers run_task].
    apply tick_idle. by rewrite inner_insert_fields.
Qed.

(** An empty change while an insertion is on record, and the run of its
    callback: the undo alone. *)
Lemma empty_change_then_ticks w :
  erase (self w) = true →
  timers w = [] →
  exec js decodes [Change ""; Tick; Tick] w =
    {| self := {| cls := cls (self w); erase := false;
                  selection := selection (self w) |};
       view := Sublime.undo (view w);
       timers := [];
       calls := calls w |}.
Proof.
  intros He Hempty.
  change (exec js decodes [Change ""; Tick; Tick] w)
    with (exec js decodes [Tick; Tick] (insert "" w)).
  rewrite (insert_only_undoes w He), Hempty. reflexivity.
Qed.

End one_change.





(** *** Undoing an insertion *)

Lemma undo_stack_erase_trailing fuel : ∀ i v,
  Sublime.undo_stack (erase_trailing fuel i v) = Sublime.undo_stack v.
Proof.
  induction fuel as [|fuel IH]; intros i v; cbn [erase_trailing]; [done|].
  destruct (Sublime.sel v !! i) as [s|]; [|done].
  rewrite IH. by destruct (Text.isspace _).
Qed.

Lemma undo_stack_insert_snippet v contents :
  Sublime.undo_stack (Sublime.insert_snippet v contents) = Sublime.undo_stack v.
Proof.
  unfold Sublime.insert_snippet.
  by destruct (Sublime.replace_all contents 0 (Sublime.sel v) (Sublime.buffer v)).
Qed.

Lemma undo_stack_run_command decodes v value :
  Sublime.undo_stack (run_command decodes v value).1 = Sublime.undo_stack v.
Proof.
  unfold run_command.
  destruct (decodes value); cbn [fst]; rewrite ?undo_stack_insert_snippet;
    destruct (Text.contains_char Text.LF value);
    by rewrite ?undo_stack_erase_trailing.
Qed.

Section sessions.
Context (js : Engine) (decodes : string → bool).

(** The editor's undo takes back all of an apply step. *)
Lemma undo_inner_insert abbr w :
  Sublime.undo (view (inner_insert js decodes abbr w)) = view w.
Proof.
  rewrite inner_insert_fields. cbn zeta. cbn [view].
  unfold Sublime.undo. rewrite undo_stack_run_command.
  by destruct (view w).
Qed.

(** The view an apply step leaves depends on the command object only through
    its class and its stored selection. *)
Lemma view_inner_insert_ext abbr w1 w2 :
  cls (self w1) = cls (self w2) →
  selection (self w1) = selection (self w2) →
  view w1 = view w2 →
  view (inner_insert js decodes abbr w1) = view (inner_insert js decodes abbr w2).
Proof.
  intros Hc Hs Hv. rewrite !inner_insert_fields. cbn zeta. cbn [view].
  unfold filter_input. cbn [set_view self]. rewrite Hc, Hs, Hv.
  by destruct (cls (self w2)).
Qed.

Lemma set_view_same w : set_view w (view w) = w.
Proof. by destruct w. Qed.

Lemma run_command_returned v value :
  (run_command decodes v value).2 = decodes value.
Proof. unfold run_command. by destruct (decodes value). Qed.

(** An apply step whose [run_command] returns puts the insertion on
    record and leaves the rest of the command object alone. *)
Lemma inner_insert_returned abbr w :
  (∀ text, decodes text = true) →
  timers (inner_insert js decodes abbr w) = timers w
  ∧ cls (self (inner_insert js decodes abbr w)) = cls (self w)
  ∧ selection (self (inner_insert js decodes abbr w)) = selection (self w)
  ∧ erase (self (inner_insert js decodes abbr w)) = true.
Proof.
  intros Hdec. rewrite inner_insert_fields. cbn zeta.
  by rewrite run_command_returned, Hdec.
Qed.

(** What [exec] does along a trace made of two parts. *)
Lemma exec_app t1 t2 w :
  exec js decodes (t1 ++ t2) w = exec js decodes t2 (exec js decodes t1 w).
Proof. unfold exec. apply foldl_app. Qed.

(** While every change has its callbacks run before the next one arrives,
    the view that the next apply step starts from is the view the session
    started with. *)
Lemma paced_changes_keep_start w0 abbrs :
  (∀ text, decodes text = true) →
  timers w0 = [] → erase (self w0) = false →
  let w := exec js decodes (paced abbrs) w0 in
  timers w = []
  ∧ cls (self w) = cls (self w0)
  ∧ selection (self w) = selection (self w0)
  ∧ before_apply w = view w0.
Proof.
  intros Hdec Hempty He. cbn zeta.
  induction abbrs as [|abbr abbrs IH] using rev_ind.
  - cbn. unfold before_apply. by rewrite He.
  - unfold paced in *. rewrite bind_app, exec_app. cbn [mbind list_bind app].
    set (w := exec js decodes (abbrs ≫= λ a, [Change a; Tick; Tick]) w0) in *.
    destruct IH as (Ht & Hc & Hs & Hv).
    destruct (decide (abbr = "")) as [->|Habbr];
      [destruct (erase (self w)) eqn:Hew|].
    + rewrite (empty_change_then_ticks js decodes w Hew Ht).
      unfold before_apply in *. rewrite Hew in Hv. cbn. auto.
    + rewrite (change_then_ticks js decodes w "" (or_intror Hew) Ht).
      destruct (inner_insert_returned "" (set_view w (before_apply w)) Hdec)
        as (Ht' & Hc' & Hs' & He').
      rewrite Ht', Hc', Hs'. repeat split; [done..|].
      unfold before_apply at 1. rewrite He', undo_inner_insert. exact Hv.
    + rewrite (change_then_ticks js decodes w abbr (or_introl Habbr) Ht).
      destruct (inner_insert_returned abbr (set_view w (before_apply w)) Hdec)
        as (Ht' & Hc' & Hs' & He').
      rewrite Ht', Hc', Hs'. repeat split; [done..|].
      unfold before_apply at 1. rewrite He', undo_inner_insert. exact Hv.
Qed.

(** When every change has its callbacks run before the next one arrives,
    the last change replaces all that the earlier ones inserted: the view
    ends as if the last change had been the only one. *)
Lemma last_paced_change_supersedes w0 abbrs last :
  (∀ text, decodes text = true) →
  timers w0 = [] → erase (self w0) = false → last ≠ "" →
  view (exec js decodes (paced (abbrs ++ [last])) w0)
  = view (exec js decodes (paced [last]) w0).
Proof.
  intros Hdec Hempty He Hlast.
  destruct (paced_changes_keep_start w0 abbrs Hdec Hempty He) as (Ht & Hc & Hs & Hv).
  unfold paced in *. rewrite bind_app, exec_app. cbn [mbind list_bind app].
  set (w := exec js decodes (abbrs ≫= λ a, [Change a; Tick; Tick]) w0) in *.
  rewrite (change_then_ticks js decodes w last (or_introl Hlast) Ht).
  rewrite (change_then_ticks js decodes w0 last (or_introl Hlast) Hempty).
  apply view_inner_insert_ext; cbn [set_view self view]; try done.
  rewrite Hv. unfold before_apply. by rewrite He.
Qed.

(** *** [WrapAsYouType.setup] *)

Lemma setup_nothing_to_wrap w :
  cls (self w) = WrapAsYouType →
  pyCaptureWrappingRange js (view w) = None →
  setup js w = log_call w PyCaptureWrappingRange.
Proof. intros Hc Hr. unfold setup. by rewrite Hc, Hr. Qed.

Lemma setup_range w r0 r1 :
  cls (self w) = WrapAsYouType →
  pyCaptureWrappingRange js (view w) = Some (r0, r1) →
  let first := Sublime.mkRegion r0 r1 in
  let selected := Sublime.select (view w) first in
  view (setup js w) = selected
  ∧ Sublime.sel (view (setup js w)) = [first]
  ∧ Sublime.buffer (view (setup js w)) = Sublime.buffer (view w)
  ∧ selection (self (setup js w)) =
      Text.unindent_text (Sublime.substr selected first)
        (Text.get_line_padding (Sublime.substr selected (Sublime.line selected first))).
Proof. intros Hc Hr. unfold setup. by rewrite Hc, Hr. Qed.

(** *** What a wrap session hands to the engine *)

Lemma self_handle w e :
  e ≠ Invoke →
  cls (self (handle js decodes w e)) = cls (self w)
  ∧ selection (self (handle js decodes w e)) = selection (self w).
Proof.
  intros He. destruct e as [|abbr| | |v]; cbn [handle]; try done.
  - unfold insert, undo.
    by destruct (negb (Text.str_truthy abbr) && erase (self w)), (erase (self w)).
  - unfold undo. by destruct (erase (self w)).
  - unfold tick. destruct (timers w) as [|[|abbr] rest]; try done.
    cbn [run_task]. rewrite inner_insert_fields. cbn zeta. cbn [self].
    by destruct (run_command _ _ _).2.
Qed.

Lemma calls_handle w e :
  e ≠ Invoke →
  cls (self w) = WrapAsYouType →
  ∃ applied,
    calls (handle js decodes w e) = calls w ++ applied
    ∧ Forall (λ c, ∃ abbr, c = PyWrapAsYouType abbr (selection (self w))) applied.
Proof.
  intros He Hc.
  assert (Hnone : ∀ w', calls w' = calls w →
    ∃ applied, calls w' = calls w ++ applied
      ∧ Forall (λ c, ∃ abbr, c = PyWrapAsYouType abbr (selection (self w))) applied).
  { intros w' ->. exists []. by rewrite app_nil_r. }
  destruct e as [|abbr| | |v]; cbn [handle]; try done.
  - apply Hnone. unfold insert, undo.
    by destruct (negb (Text.str_truthy abbr) && erase (self w)), (erase (self w)).
  - apply Hnone. unfold undo. by destruct (erase (self w)).
  - unfold tick. destruct (timers w) as [|[|abbr] rest]; try by apply Hnone.
    cbn [run_task]. rewrite inner_insert_fields. cbn zeta. cbn [calls].
    unfold filter_input. cbn [set_view self]. rewrite Hc. cbn [snd log_call calls].
    exists [PyWrapAsYouType abbr (selection (self w))]. split; [done|].
    constructor; [by exists abbr | constructor].
  - by apply Hnone.
Qed.

Lemma calls_exec trace : ∀ w,
  Invoke ∉ trace →
  cls (self w) = WrapAsYouType →
  ∃ applied,
    calls (exec js decodes trace w) = calls w ++ applied
    ∧ Forall (λ c, ∃ abbr, c = PyWrapAsYouType abbr (selection (self w))) applied.
Proof.
  induction trace as [|e rest IH]; intros w Hno Hc.
  - exists []. by rewrite app_nil_r.
  - apply not_elem_of_cons in Hno as [He Hrest].
    assert (He' : e ≠ Invoke) by congruence.
    destruct (self_handle w e He') as [Hc' Hs'].
    destruct (calls_handle w e He' Hc) as (first & Hfirst & Hall1).
    destruct (IH (handle js decodes w e) Hrest) as (more & Hmore & Hall2);
      [congruence|].
    exists (first ++ more). split.
    + cbn [exec foldl]. fold (exec js decodes rest (handle js decodes w e)).
      by rewrite Hmore, Hfirst, app_assoc.
    + apply Forall_app. split; [done|]. by rewrite <- Hs'.
Qed.

End sessions.

(** *** Several changes in a row *)

(** C1.  The code departs from the claim when changes of the panel's text
    arrive before the editor has run the callback of the one before.  The
    command is invoked and the changes [d], [di], [div] arrive in a burst.
    After the first change the insertion of [d] waits in the queue and
    [self.erase] is still unset: only the deferred [inner_insert] sets it.
    [insert] reads it at once, so the second and the third change hand the
    editor no undo, only their insertions.  The callbacks run in the order
    they were issued and all three complete: the document ends with the
    three expansions one after the other, not with the expansion of [div]
    alone.  The same inputs leave the expansion of [div] alone when the
    callbacks of each change have run before the next change arrives, and
    also when only the insertion of [d] has run before [di] and [div]
    arrive together. *)
Theorem burst_of_changes_leaves_residual_text :
  let start := new_world ExpandAsYouType empty_view in
  let burst := [Invoke; Change "d"; Change "di"; Change "div"; Tick; Tick; Tick] in
  timers (exec sample_engine all_decode [Invoke; Change "d"] start)
    = [InnerInsert "d"]
  ∧ erase (self (exec sample_engine all_decode [Invoke; Change "d"] start)) = false
  ∧ issued sample_engine all_decode burst start
    = [InnerInsert "d"; InnerInsert "di"; InnerInsert "div"]
  ∧ ran sample_engine all_decode burst start
    = [InnerInsert "d"; InnerInsert "di"; InnerInsert "div"]
  ∧ timers (exec sample_engine all_decode burst start) = []
  ∧ Sublime.buffer (view (exec sample_engine all_decode burst start))
    = "<d></d><di></di><div></div>"
  ∧ Sublime.buffer
      (view (exec sample_engine all_decode
               (Invoke :: paced ["d"; "di"; "div"]) start))
    = "<div></div>"
  ∧ Sublime.buffer
      (view (exec sample_engine all_decode
               [Invoke; Change "d"; Tick; Change "di"; Change "div";
                Tick; Tick; Tick; Tick] start))
    = "<div></div>".
Proof. repeat split. Qed.

(** *** Wrapping *)

(** C4, as amended.  In a wrap-as-you-type session the text to wrap is
    taken once, by [setup], when the command is invoked: the selection it
    makes from the captured range, unindented.  Every later application of a
    wrap abbreviation hands the engine that stored text, whatever the
    document holds by then. *)
Theorem wrap_applies_text_stored_by_setup :
  ∀ (js : Engine) (decodes : string → bool) (w : World) (trace : list event),
    cls (self w) = WrapAsYouType →
    Invoke ∉ trace →
    (∃ applied,
       calls (exec js decodes trace (run js w)) = calls (run js w) ++ applied
       ∧ Forall (λ c, ∃ abbr, c = PyWrapAsYouType abbr (selection (self (run js w))))
           applied)
    ∧ (∀ r0 r1, pyCaptureWrappingRange js (view w) = Some (r0, r1) →
       let first := Sublime.mkRegion r0 r1 in
       let selected := Sublime.select (view w) first in
       selection (self (run js w)) =
         Text.unindent_text (Sublime.substr selected first)
           (Text.get_line_padding
              (Sublime.substr selected (Sublime.line selected first)))).
Proof.
  intros js decodes w trace Hc Hno. split.
  - apply calls_exec; [done|]. unfold run. cbn [set_erase set_self self cls].
    unfold setup. rewrite Hc.
    by destruct (pyCaptureWrappingRange js (view w)) as [[r0 r1]|].
  - intros r0 r1 Hr. unfold run. cbn [set_erase set_self self selection].
    by destruct (setup_range js w r0 r1 Hc Hr) as (_ & _ & _ & ->).
Qed.

Lemma wrap_applies_text_stored_by_setup_witness :
  ∃ applied,
    calls (exec sample_engine all_decode [Outside bar_view; Change "p"; Tick]
             (run sample_engine (new_world WrapAsYouType foo_view)))
    = calls (run sample_engine (new_world WrapAsYouType foo_view)) ++ applied
    ∧ Forall (λ c, ∃ abbr, c = PyWrapAsYouType abbr
                (selection (self (run sample_engine (new_world WrapAsYouType foo_view)))))
        applied.
Proof.
  refine (proj1 (wrap_applies_text_stored_by_setup sample_engine all_decode
                   (new_world WrapAsYouType foo_view)
                   [Outside bar_view; Change "p"; Tick] eq_refl _)).
  intros H. not_in_list H.
Defined.

(** C4 as it was stated fails.  The document is changed to [bar] after the
    command was invoked on [foo]: when the abbreviation [p] is applied the
    live document holds [bar] in the captured range, and the engine is still
    handed [foo].  The same happens without any outside edit when a second
    change arrives before the callback of the first has run: [p] is applied
    to a document that holds [<di] in the captured range, and the engine is
    handed [foo]. *)
Lemma wrap_ignores_the_live_document :
  pyCaptureWrappingRange sample_engine foo_view = Some (0, 3)
  ∧ Sublime.substr
      (view (exec sample_engine all_decode [Invoke; Outside bar_view; Change "p"]
               (new_world WrapAsYouType foo_view)))
      (Sublime.mkRegion 0 3) = "bar"
  ∧ calls (exec sample_engine all_decode [Invoke; Outside bar_view; Change "p"; Tick]
             (new_world WrapAsYouType foo_view))
    = [PyCaptureWrappingRange; PyWrapAsYouType "p" "foo"]
  ∧ Sublime.substr
      (view (exec sample_engine all_decode [Invoke; Change "div"; Change "p"; Tick]
               (new_world WrapAsYouType foo_view)))
      (Sublime.mkRegion 0 3) = "<di"
  ∧ calls (exec sample_engine all_decode [Invoke; Change "div"; Change "p"; Tick; Tick]
             (new_world WrapAsYouType foo_view))
    = [PyCaptureWrappingRange; PyWrapAsYouType "div" "foo"; PyWrapAsYouType "p" "foo"].
Proof. repeat split. Qed.

(** C8.  The wrap command is invoked twice on the same command object.  The
    first time the range 0 to 3 of [foo] is captured and wrapped in [div].
    The second time the capture gives no range: [setup] returns early, and
    the stored text is not the empty default but still the [foo] of the first
    invocation, which the next abbreviation wraps again. *)
Theorem wrap_keeps_text_of_earlier_invocation :
  let first := [Invoke; Change "div"; Tick] in
  let start := new_world WrapAsYouType foo_view in
  let again := exec sample_engine all_decode (first ++ [Invoke]) start in
  pyCaptureWrappingRange sample_engine
    (view (exec sample_engine all_decode first start)) = None
  ∧ view again = view (exec sample_engine all_decode first start)
  ∧ selection (self again) = "foo"
  ∧ calls (exec sample_engine all_decode [Change "p"; Tick] again)
    = calls again ++ [PyWrapAsYouType "p" "foo"]
  ∧ Sublime.buffer (view (exec sample_engine all_decode [Change "p"; Tick] again))
    = "<div>foo</div><p>foo</p>".
Proof. repeat split. Qed.

(** What [setup] does by itself: without a range it changes neither the
    view nor the command object; with a range the selection becomes exactly
    that range and the stored text is the selected text, unindented by the
    padding of its line. *)
Lemma setup_with_and_without_range :
  ∀ (js : Engine) (w : World),
    cls (self w) = WrapAsYouType →
    (pyCaptureWrappingRange js (view w) = None →
     view (setup js w) = view w ∧ self (setup js w) = self w)
    ∧ (∀ r0 r1, pyCaptureWrappingRange js (view w) = Some (r0, r1) →
       Sublime.sel (view (setup js w)) = [Sublime.mkRegion r0 r1]
       ∧ selection (self (setup js w)) =
           Text.unindent_text
             (Sublime.substr (Sublime.select (view w) (Sublime.mkRegion r0 r1))
                (Sublime.mkRegion r0 r1))
             (Text.get_line_padding
                (Sublime.substr (Sublime.select (view w) (Sublime.mkRegion r0 r1))
                   (Sublime.line (Sublime.select (view w) (Sublime.mkRegion r0 r1))
                      (Sublime.mkRegion r0 r1))))).
Proof.
  intros js w Hc. split.
  - intros Hr. by rewrite (setup_nothing_to_wrap js w Hc Hr).
  - intros r0 r1 Hr.
    by destruct (setup_range js w r0 r1 Hc Hr) as (_ & -> & _ & ->).
Qed.

(** * More of the plugin *)

(** ** Pieces of a string *)

Lemma string_app_assoc (s t u : string) : (s +:+ t) +:+ u = s +:+ t +:+ u.
Proof. induction s as [|c s IH]; [done|]. by rewrite !app_String, IH. Qed.

Lemma string_app_nil (s : string) : s +:+ "" = s.
Proof. induction s as [|c s IH]; [done|]. by rewrite app_String, IH. Qed.

Lemma substring_0_app (before rest : string) :
  String.substring 0 (String.length before) (before +:+ rest) = before.
Proof.
  induction before as [|c before IH]; [by destruct rest|].
  rewrite app_String. cbn. by rewrite IH.
Qed.

Lemma slice_from_app_more (before rest : string) n :
  Text.slice_from (String.length before + n) (before +:+ rest) = Text.slice_from n rest.
Proof. induction before as [|c before IH]; [done|]. exact IH. Qed.

(** A buffer is what lies before a region, the region and what lies behind. *)
Lemma buffer_in_three (buf : string) : ∀ s e : nat,
  (s ≤ e)%nat → (e ≤ String.length buf)%nat →
  buf = String.substring 0 s buf +:+ String.substring s (e - s) buf
        +:+ Text.slice_from e buf.
Proof.
  induction buf as [|c buf IH]; intros s e Hse He.
  - cbn in He. assert (e = 0%nat) as -> by lia. assert (s = 0%nat) as -> by lia. done.
  - destruct s as [|s].
    + rewrite Nat.sub_0_r. cbn [String.substring]. change ("" +:+ ?x) with x.
      clear IH Hse. revert c buf He.
      induction e as [|e IHe]; intros c buf He; [done|].
      cbn [String.substring Text.slice_from]. rewrite app_String. f_equal.
      destruct buf as [|c' buf]; [cbn in He; by assert (e = 0%nat) as -> by lia|].
      apply IHe. cbn in *. lia.
    + destruct e as [|e]; [lia|].
      cbn [String.substring Text.slice_from Nat.sub]. rewrite app_String. f_equal.
      apply IH; cbn in He; lia.
Qed.

Lemma non_space_app (s t : string) :
  non_space (s +:+ t) = non_space s +:+ non_space t.
Proof.
  induction s as [|c s IH]; [done|]. rewrite app_String. cbn [non_space].
  destruct (Ascii.is_space c); [done|]. by rewrite app_String, IH.
Qed.

Lemma non_space_all_space (s : string) :
  Text.all_space s = true → non_space s = "".
Proof.
  induction s as [|c s IH]; [done|]. cbn. intros [Hc Hs]%andb_true_iff.
  rewrite Hc. by apply IH.
Qed.

Lemma isspace_all_space (s : string) :
  Text.isspace s = true → Text.all_space s = true.
Proof. by destruct s. Qed.

Lemma point_le_size v p : (Sublime.point v p ≤ String.length (Sublime.buffer v))%nat.
Proof. unfold Sublime.point, Sublime.size. lia. Qed.

Lemma point_begin_le_end v r :
  (Sublime.point v (Sublime.region_begin r) ≤ Sublime.point v (Sublime.region_end r))%nat.
Proof. unfold Sublime.point, Sublime.region_begin, Sublime.region_end. lia. Qed.

(** ** The clean-up of [run_command] *)

(** Erasing a region that holds whitespace only. *)
Lemma erase_space_region v r :
  Text.isspace (Sublime.substr v r) = true →
  non_space (Sublime.buffer (Sublime.erase v r)) = non_space (Sublime.buffer v)
  ∧ (String.length (Sublime.buffer (Sublime.erase v r))
     ≤ String.length (Sublime.buffer v))%nat.
Proof.
  intros Hs. apply isspace_all_space in Hs. unfold Sublime.substr in Hs.
  cbn [Sublime.erase Sublime.buffer].
  pose proof (point_begin_le_end v r) as Hse.
  pose proof (point_le_size v (Sublime.region_end r)) as He.
  split.
  - rewrite (buffer_in_three (Sublime.buffer v) _ _ Hse He) at 3.
    rewrite !non_space_app, (non_space_all_space _ Hs). done.
  - rewrite app_length_string. by apply cut_length_le.
Qed.

(** X12. The clean-up loop of [run_command], which erases the blanks
    between a selection and the end of its line, never removes a character
    that is not whitespace and never makes the buffer longer; so a
    [run_command] that raises leaves the text of the document as it was, up
    to whitespace. *)
Theorem erase_trailing_removes_whitespace_only :
  ∀ (decodes : string → bool) (fuel i : nat) (v : View) (value : string),
    (non_space (Sublime.buffer (erase_trailing fuel i v)) = non_space (Sublime.buffer v)
     ∧ (String.length (Sublime.buffer (erase_trailing fuel i v))
        ≤ String.length (Sublime.buffer v))%nat)
    ∧ (decodes value = false →
       non_space (Sublime.buffer (run_command decodes v value).1)
       = non_space (Sublime.buffer v)).
Proof.
  intros decodes fuel i v value.
  assert (Hloop : ∀ fuel i v,
    non_space (Sublime.buffer (erase_trailing fuel i v)) = non_space (Sublime.buffer v)
    ∧ (String.length (Sublime.buffer (erase_trailing fuel i v))
       ≤ String.length (Sublime.buffer v))%nat).
  { clear. induction fuel as [|fuel IH]; intros i v; cbn [erase_trailing]; [done|].
    destruct (Sublime.sel v !! i) as [s|]; [|done].
    match goal with |- context [Text.isspace ?t] => destruct (Text.isspace t) eqn:Hs end;
      [|apply IH].
    destruct (erase_space_region _ _ Hs) as [Hn Hl].
    destruct (IH (S i) (Sublime.erase v
      (Sublime.mkRegion (Sublime.region_end s)
         (Sublime.region_end (Sublime.line v s))))) as [Hn' Hl'].
    split; [congruence | lia]. }
  split; [apply Hloop|].
  intros Hd. unfold run_command. rewrite Hd. cbn [fst].
  destruct (Text.contains_char Text.LF value); [apply Hloop | done].
Qed.

Lemma erase_trailing_removes_whitespace_only_witness :
  non_space (Sublime.buffer (run_command (λ _, false) blanks_view Text.newline).1)
  = non_space (Sublime.buffer blanks_view).
Proof.
  exact (proj2 (erase_trailing_removes_whitespace_only (λ _, false) 0 0
                  blanks_view Text.newline) eq_refl).
Defined.

(** ** More about the text helpers *)

Lemma rev_app_length (s1 s2 : string) :
  String.length (String.rev_app s1 s2) = (String.length s1 + String.length s2)%nat.
Proof.
  revert s2. induction s1 as [|c s1 IH]; intros s2; [done|].
  cbn [String.rev_app]. rewrite IH. cbn. lia.
Qed.

Lemma rev_length (s : string) : String.length (String.rev s) = String.length s.
Proof. unfold String.rev. rewrite rev_app_length. cbn. lia. Qed.

Lemma join_cons_length (x : string) (xs : list string) :
  String.length (Text.join Text.newline (x :: xs))
  = match xs with
    | [] => String.length x
    | _ => (String.length x + 1 + String.length (Text.join Text.newline xs))%nat
    end.
Proof.
  unfold Text.join. destruct xs as [|y ys]; [done|].
  cbn [String.concat]. rewrite !app_length_string. cbn. lia.
Qed.

Lemma join_length_mono (xs ys : list string) :
  Forall2 (λ x y, (String.length x ≤ String.length y)%nat) xs ys →
  (String.length (Text.join Text.newline xs)
   ≤ String.length (Text.join Text.newline ys))%nat.
Proof.
  induction 1 as [|x y xs ys Hxy Hrest IH]; [done|].
  rewrite !join_cons_length.
  destruct Hrest; [lia|]. rewrite !join_cons_length in *. lia.
Qed.

(** The lines of a text, put together again, are not longer than the text. *)
Lemma splitlines_go_length n : ∀ s cur,
  (String.length s ≤ n)%nat →
  (String.length (Text.join Text.newline (Text.splitlines_go cur s))
   ≤ String.length cur + String.length s)%nat.
Proof.
  induction n as [|n IH]; intros s cur Hn.
  - destruct s; [|cbn in Hn; lia]. cbn [Text.splitlines_go].
    destruct cur; [cbn; lia|]. rewrite join_cons_length, rev_length. lia.
  - destruct s as [|c s]; cbn [Text.splitlines_go].
    { destruct cur; [cbn; lia|]. rewrite join_cons_length, rev_length. lia. }
    cbn [String.length] in *.
    assert (Hcons : ∀ rest : string, (String.length rest ≤ n)%nat →
      (String.length (Text.join Text.newline
                        (String.rev cur :: Text.splitlines_go "" rest))
       ≤ String.length cur + 1 + String.length rest)%nat).
    { intros rest Hrest. rewrite join_cons_length, rev_length.
      pose proof (IH rest "" Hrest) as Hle. cbn [String.length] in Hle.
      destruct (Text.splitlines_go "" rest); lia. }
    destruct (decide (c = Text.LF)); [specialize (Hcons s); lia|].
    destruct (decide (c = Text.CR)).
    + destruct s as [|c' s']; [specialize (Hcons ""); cbn in *; lia|].
      cbn [String.length] in *.
      destruct (decide (c' = Text.LF)).
      * specialize (Hcons s'). lia.
      * specialize (Hcons (String c' s')). cbn [String.length] in Hcons. lia.
    + specialize (IH s (String c cur)). cbn [String.length] in IH. lia.
Qed.

Lemma contains_char_app c (s t : string) :
  Text.contains_char c (s +:+ t) = Text.contains_char c s || Text.contains_char c t.
Proof.
  induction s as [|c' s IH]; [done|]. rewrite app_String. cbn [Text.contains_char].
  by destruct (decide (c' = c)).
Qed.

Lemma no_break_no_cr (s : string) :
  has_break s = false → Text.contains_char Text.CR s = false.
Proof.
  induction s as [|c s IH]; [done|]. cbn.
  intros [[Hlf Hcr]%orb_false_iff Hs]%orb_false_iff.
  apply bool_decide_eq_false in Hcr. rewrite decide_False by done. by apply IH.
Qed.

Lemma slice_from_no_cr n : ∀ s : string,
  Text.contains_char Text.CR s = false →
  Text.contains_char Text.CR (Text.slice_from n s) = false.
Proof.
  induction n as [|n IH]; intros [|c s]; cbn; try done.
  destruct (decide (c = Text.CR)); [done|]. apply IH.
Qed.

Lemma join_no_cr (lines : list string) :
  Forall (λ line, Text.contains_char Text.CR line = false) lines →
  Text.contains_char Text.CR (Text.join Text.newline lines) = false.
Proof.
  unfold Text.join. induction 1 as [|x xs Hx Hxs IH]; [done|].
  cbn [String.concat]. destruct xs as [|y ys]; [done|].
  rewrite !contains_char_app, Hx, IH. done.
Qed.

Lemma strip_pad_length pad line :
  (String.length (strip_pad pad line) ≤ String.length line)%nat.
Proof.
  unfold strip_pad. destruct (Text.startswith line pad); [|lia].
  apply slice_from_length_le.
Qed.

(** *** Line breaks *)

Lemma splitlines_go_not_nil s : ∀ cur,
  cur ≠ "" ∨ s ≠ "" → Text.splitlines_go cur s ≠ [].
Proof.
  induction s as [|c s IH]; intros cur Hne; cbn [Text.splitlines_go].
  - destruct cur; [by destruct Hne|done].
  - destruct (decide (c = Text.LF)); [done|].
    destruct (decide (c = Text.CR)).
    + destruct s as [|c' s']; [done|]. by destruct (decide (c' = Text.LF)).
    + apply IH. by left.
Qed.

Lemma lf_breaks_nil s : lf_breaks s = "" → s = "".
Proof.
  destruct s as [|c s]; [done|]. cbn [lf_breaks].
  destruct (decide (c = Text.CR)); [|done].
  destruct s as [|c' s']; [done|]. by destruct (decide (c' = Text.LF)).
Qed.

Lemma drop_final_lf_app (x t : string) :
  t ≠ "" → drop_final_lf (x +:+ t) = x +:+ drop_final_lf t.
Proof.
  intros Ht. induction x as [|c x IH]; [done|].
  rewrite !app_String. cbn [drop_final_lf]. rewrite IH.
  destruct (x +:+ t) eqn:E; [|done].
  destruct x, t; done.
Qed.

Lemma drop_final_lf_no_break s : has_break s = false → drop_final_lf s = s.
Proof.
  induction s as [|c s IH]; [done|]. cbn [has_break drop_final_lf].
  intros [[Hlf _]%orb_false_iff Hs]%orb_false_iff.
  apply bool_decide_eq_false in Hlf.
  destruct s as [|c' s']; [by rewrite decide_False|]. by rewrite IH.
Qed.

Lemma rev_cons_app c (cur t : string) :
  String.rev (String c cur) +:+ t = String.rev cur +:+ String c t.
Proof. unfold String.rev. cbn [String.rev_app]. by rewrite !rev_app_app. Qed.

(** The lines of a text joined by line feeds are the text with its breaks
    written as line feeds and the final one dropped. *)
Lemma join_splitlines_go n : ∀ s cur,
  (String.length s ≤ n)%nat →
  has_break cur = false →
  Text.join Text.newline (Text.splitlines_go cur s)
  = drop_final_lf (String.rev cur +:+ lf_breaks s).
Proof.
  induction n as [|n IH]; intros s cur Hn Hcur.
  - destruct s; [|cbn in Hn; lia]. cbn [Text.splitlines_go lf_breaks].
    rewrite string_app_nil, drop_final_lf_no_break by by rewrite has_break_rev.
    destruct cur as [|c cur]; [done|]. done.
  - destruct s as [|c s].
    { cbn [Text.splitlines_go lf_breaks].
      rewrite string_app_nil, drop_final_lf_no_break by by rewrite has_break_rev.
      by destruct cur. }
    cbn [String.length] in Hn.
    assert (Hcons : ∀ rest : string, (String.length rest ≤ n)%nat →
      Text.join Text.newline (String.rev cur :: Text.splitlines_go "" rest)
      = drop_final_lf (String.rev cur +:+ String Text.LF (lf_breaks rest))).
    { intros rest Hrest.
      pose proof (IH rest "" Hrest eq_refl) as Hjoin.
      change (String.rev "" +:+ lf_breaks rest) with (lf_breaks rest) in Hjoin.
      rewrite drop_final_lf_app by done.
      destruct rest as [|c' rest'].
      - cbn. by rewrite string_app_nil.
      - destruct (Text.splitlines_go "" (String c' rest')) as [|l ls] eqn:E.
        { by apply splitlines_go_not_nil in E; [|right]. }
        unfold Text.join in *.
        change (String.concat Text.newline (String.rev cur :: l :: ls))
          with (String.rev cur +:+ Text.newline
                +:+ String.concat Text.newline (l :: ls)).
        rewrite Hjoin.
        destruct (lf_breaks (String c' rest')) eqn:El;
          [by apply lf_breaks_nil in El|].
        reflexivity. }
    cbn [Text.splitlines_go lf_breaks].
    destruct (decide (c = Text.LF)) as [->|Hlf].
    { rewrite decide_False by done. apply Hcons. lia. }
    destruct (decide (c = Text.CR)) as [->|Hcr].
    + destruct s as [|c' s']; [exact (Hcons "" ltac:(cbn; lia))|].
      cbn [String.length] in Hn.
      destruct (decide (c' = Text.LF)); apply Hcons; cbn [String.length]; lia.
    + rewrite IH; [by rewrite rev_cons_app|lia|].
      cbn [has_break]. by rewrite Hcur, !bool_decide_eq_false_2.
Qed.

Lemma join_splitlines (text : string) :
  Text.join Text.newline (Text.splitlines text) = drop_final_lf (lf_breaks text).
Proof. exact (join_splitlines_go _ text "" (le_n _) eq_refl). Qed.

Lemma count_char_app c (s t : string) :
  count_char c (s +:+ t) = (count_char c s + count_char c t)%nat.
Proof.
  induction s as [|c' s IH]; [done|]. rewrite app_String. cbn [count_char].
  rewrite IH. lia.
Qed.

Lemma no_break_no_lf (s : string) :
  has_break s = false → count_char Text.LF s = 0%nat.
Proof.
  induction s as [|c s IH]; [done|]. cbn [has_break count_char].
  intros [[Hlf _]%orb_false_iff Hs]%orb_false_iff.
  apply bool_decide_eq_false in Hlf. rewrite decide_False by done. by rewrite IH.
Qed.

Lemma slice_from_no_break n : ∀ s : string,
  has_break s = false → has_break (Text.slice_from n s) = false.
Proof.
  induction n as [|n IH]; intros [|c s]; cbn [Text.slice_from has_break]; try done.
  intros [_ Hs]%orb_false_iff. by apply IH.
Qed.

(** Lines without a break, joined: one line feed between two lines. *)
Lemma count_lf_join (lines : list string) :
  Forall (λ line, has_break line = false) lines →
  count_char Text.LF (Text.join Text.newline lines) = pred (length lines).
Proof.
  unfold Text.join. induction 1 as [|x xs Hx Hxs IH]; [done|].
  cbn [String.concat]. destruct xs as [|y ys]; [by rewrite no_break_no_lf|].
  rewrite !count_char_app, IH, (no_break_no_lf x) by done.
  assert (count_char Text.LF Text.newline = 1%nat) as -> by reflexivity.
  cbn [length]. lia.
Qed.

(** X1. [unindent_text] writes every line break of the text ([LF], [CR] or
    [CR LF]) as one line feed and drops a final line break: with an empty
    pad that is all it does, and with any pad the result has exactly the
    line feeds of the text so rewritten.  The result holds no carriage
    return and is never longer than the text: the pad is cut off, nothing
    is added. *)
Theorem unindent_text_line_breaks :
  ∀ text pad : string,
    Text.unindent_text text "" = drop_final_lf (lf_breaks text)
    ∧ count_char Text.LF (Text.unindent_text text pad)
      = count_char Text.LF (drop_final_lf (lf_breaks text))
    ∧ Text.contains_char Text.CR (Text.unindent_text text pad) = false
    ∧ (String.length (Text.unindent_text text pad) ≤ String.length text)%nat.
Proof.
  intros text pad. rewrite !unindent_text_map.
  pose proof (splitlines_go_no_break text "" eq_refl) as Hlines.
  fold (Text.splitlines text) in Hlines.
  assert (Hstripped :
    Forall (λ line, has_break line = false) (strip_pad pad <$> Text.splitlines text)).
  { apply Forall_fmap. eapply Forall_impl; [exact Hlines|].
    intros line Hline. cbn. unfold strip_pad.
    destruct (Text.startswith line pad); [by apply slice_from_no_break|done]. }
  split; [|split; [|split]].
  - rewrite <- join_splitlines. f_equal.
    rewrite <- (list_fmap_id (Text.splitlines text)) at 2.
    apply list_fmap_ext. intros i line _. reflexivity.
  - rewrite <- join_splitlines, !count_lf_join by done. by rewrite length_fmap.
  - apply join_no_cr. eapply Forall_impl; [exact Hstripped|].
    intros line. apply no_break_no_cr.
  - etrans; [apply (join_length_mono _ (Text.splitlines text))|].
    + apply Forall2_fmap_l, Forall2_same_length_lookup_2; [done|].
      intros i x y Hx Hy. simplify_eq. apply strip_pad_length.
    + pose proof (splitlines_go_length (String.length text) text "" (le_n _)) as H.
      cbn [String.length] in H. exact H.
Qed.

Lemma unindent_text_line_breaks_witness :
  Text.unindent_text crlf_text "" = "a" +:+ Text.newline +:+ "  b".
Proof.
  rewrite (proj1 (unindent_text_line_breaks crlf_text "")). reflexivity.
Defined.

(** X2. A line cut by its own padding: [get_line_padding] and
    [unindent_text] split a line (a text without a line break) in two, the
    padding and a rest that does not start with whitespace. *)
Theorem unindent_by_own_padding :
  ∀ line : string,
    has_break line = false →
    Text.get_line_padding line +:+ Text.unindent_text line (Text.get_line_padding line)
      = line
    ∧ Text.get_line_padding
        (Text.unindent_text line (Text.get_line_padding line)) = "".
Proof.
  intros line Hb. rewrite !get_line_padding_leading.
  destruct line as [|c line]; [done|].
  rewrite unindent_text_map, (splitlines_one_line _ Hb) by done.
  destruct (leading_space_split (String c line)) as (rest & Hl & _ & Hrest).
  remember (Text.leading_space (String c line)) as pad eqn:Hpad.
  assert (Hstrip : strip_pad pad (String c line) = rest).
  { rewrite Hl. unfold strip_pad. by rewrite startswith_app, slice_from_app. }
  cbn [fmap list_fmap Text.join String.concat]. rewrite Hstrip.
  split; [by rewrite <- Hl|].
  destruct Hrest as [->|(c' & rest' & -> & Hc')]; [done|]. cbn. by rewrite Hc'.
Qed.

Lemma unindent_by_own_padding_witness :
  Text.get_line_padding "    <li>a</li>"
    +:+ Text.unindent_text "    <li>a</li>" (Text.get_line_padding "    <li>a</li>")
  = "    <li>a</li>".
Proof. exact (proj1 (unindent_by_own_padding "    <li>a</li>" eq_refl)). Defined.

(** ** [replace_substring] *)

Lemma replace_substring_in_place decodes v (before old after value : string) end_ :
  Sublime.buffer v = before +:+ old +:+ after →
  end_or_start end_ (Z.of_nat (String.length before))
    = Z.of_nat (String.length before) + Z.of_nat (String.length old) →
  decodes value = true →
  replace_substring decodes v (Z.of_nat (String.length before)) end_ value false
  = ({| Sublime.buffer := before +:+ value +:+ after;
        Sublime.sel :=
          [caret_at (Z.of_nat (String.length before) + Z.of_nat (String.length value))];
        Sublime.undo_stack := (Sublime.buffer v, Sublime.sel v) :: Sublime.undo_stack v |},
     true).
Proof.
  intros Hbuf Hend Hdec. unfold replace_substring. rewrite Hdec, Hend.
  unfold Sublime.end_edit, Sublime.insert_snippet.
  cbn [Sublime.select Sublime.begin_edit Sublime.sel Sublime.buffer
       Sublime.undo_stack Sublime.replace_all].
  unfold Sublime.region_begin, Sublime.region_end. cbn [Sublime.a Sublime.b].
  rewrite Z.min_l, Z.max_r by lia.
  replace (Z.to_nat (Z.of_nat (String.length before) + 0))
    with (String.length before) by lia.
  replace (Z.to_nat (Z.of_nat (String.length before)
                     + Z.of_nat (String.length old) + 0))
    with (String.length before + String.length old)%nat by lia.
  rewrite Hbuf, substring_0_app, slice_from_app_more, slice_from_app.
  reflexivity.
Qed.

(** X3. [replace_substring(start, end, value)] with [end] behind [start]
    and a value that the editor inserts as it is (one line of text with no
    snippet field, escape or tab in it) replaces exactly the text from
    [start] to [end]: what lies before and behind it stays, the caret is left
    behind the new text, and the whole change is one edit group, so that one
    undo of the editor gives the view back as it was, selection included.
    (A value with snippet fields is expanded by the editor, which the model
    of the editor does not do: the theorem does not speak of such values.) *)
Theorem replace_substring_replaces_the_range :
  ∀ (decodes : string → bool) (v : View) (before old after value : string),
    Sublime.buffer v = before +:+ old +:+ after →
    old ≠ "" ∨ before ≠ "" →
    decodes value = true →
    plain_text value = true →
    let start := Z.of_nat (String.length before) in
    let out := replace_substring decodes v start
                 (Some (start + Z.of_nat (String.length old))) value false in
    out.2 = true
    ∧ Sublime.buffer out.1 = before +:+ value +:+ after
    ∧ Sublime.sel out.1 = [caret_at (start + Z.of_nat (String.length value))]
    ∧ Sublime.undo out.1 = v.
Proof.
  intros decodes v before old after value Hbuf Hne Hdec _ start out.
  unfold out, start. rewrite (replace_substring_in_place _ _ _ old after _ _ Hbuf); [| |done].
  - cbn [fst snd Sublime.buffer Sublime.sel]. repeat split. by destruct v.
  - unfold end_or_start.
    destruct (_ =? 0) eqn:Hz; [|done]. apply Z.eqb_eq in Hz.
    destruct Hne as [Hne|Hne]; [destruct old | destruct before]; cbn in *; (done || lia).
Qed.

Lemma replace_substring_replaces_the_range_witness :
  Sublime.buffer
    (replace_substring all_decode foo_view 1 (Some 2) "XY" false).1 = "fXYo".
Proof.
  refine (proj1 (proj2 (replace_substring_replaces_the_range all_decode foo_view
                          "f" "o" "o" "XY" eq_refl _ eq_refl eq_refl))).
  left. discriminate.
Defined.

(** X4. [replace_substring] with [end] missing or 0 removes nothing: the
    value is inserted at [start], wherever [start] is.  ([end or start]
    makes an end of 0 stand for a missing end.) *)
Theorem replace_substring_without_end_inserts :
  ∀ (decodes : string → bool) (v : View) (before after value : string)
    (end_ : option Z),
    Sublime.buffer v = before +:+ after →
    end_ = None ∨ end_ = Some 0 →
    decodes value = true →
    let start := Z.of_nat (String.length before) in
    let out := replace_substring decodes v start end_ value false in
    out.2 = true
    ∧ Sublime.buffer out.1 = before +:+ value +:+ after
    ∧ Sublime.sel out.1 = [caret_at (start + Z.of_nat (String.length value))]
    ∧ Sublime.undo out.1 = v.
Proof.
  intros decodes v before after value end_ Hbuf Hend Hdec start out.
  unfold out, start.
  rewrite (replace_substring_in_place _ _ _ "" after _ _ Hbuf); [| |done].
  - cbn [fst snd Sublime.buffer Sublime.sel]. repeat split. by destruct v.
  - destruct Hend as [-> | ->]; cbn; lia.
Qed.

Lemma replace_substring_without_end_inserts_witness :
  Sublime.buffer
    (replace_substring all_decode foo_view 2 (Some 0) "XY" false).1 = "foXYo".
Proof.
  refine (proj1 (proj2 (replace_substring_without_end_inserts all_decode foo_view
                          "fo" "o" "XY" (Some 0) eq_refl _ eq_refl))).
  by right.
Defined.

(** ** [EmmetInsertAttribute] *)

Lemma last_char (s : string) : s ≠ "" → ∃ front c, s = front +:+ String c "".
Proof.
  induction s as [|c s IH]; [done|]. intros _.
  destruct s as [|c' s'].
  - by exists "", c.
  - destruct IH as (front & d & Hd); [done|]. exists (String c front), d.
    by rewrite Hd.
Qed.

Lemma substring_app_skip (front rest : string) n m :
  String.substring (String.length front + n) m (front +:+ rest)
  = String.substring n m rest.
Proof. induction front as [|c front IH]; [done|]. exact IH. Qed.

Lemma substring_0_0 (s : string) : String.substring 0 0 s = "".
Proof. by destruct s. Qed.

(** The character before a position of the buffer. *)
Lemma substr_char_before v (front rest : string) c :
  Sublime.buffer v = (front +:+ String c "") +:+ rest →
  Sublime.substr v
    (Sublime.mkRegion (Z.of_nat (String.length (front +:+ String c "")) - 1)
                      (Z.of_nat (String.length (front +:+ String c ""))))
  = String c "".
Proof.
  intros Hbuf. unfold Sublime.substr, Sublime.point, Sublime.size,
    Sublime.region_begin, Sublime.region_end. cbn [Sublime.a Sublime.b].
  rewrite Hbuf, !app_length_string. cbn [String.length].
  replace (Z.to_nat _) with (String.length front + 0)%nat at 1 by lia.
  replace (Z.to_nat _ - _)%nat with 1%nat by lia.
  rewrite string_app_assoc, substring_app_skip.
  rewrite app_String. cbn [String.substring]. by rewrite substring_0_0.
Qed.

(** Inserting a snippet over one region. *)
Lemma insert_snippet_one_region v (before old after text : string) :
  Sublime.buffer v = before +:+ old +:+ after →
  Sublime.sel v = [Sublime.mkRegion (Z.of_nat (String.length before))
                     (Z.of_nat (String.length before) + Z.of_nat (String.length old))] →
  Sublime.buffer (Sublime.insert_snippet v text) = before +:+ text +:+ after.
Proof.
  intros Hbuf Hsel. unfold Sublime.insert_snippet. rewrite Hsel.
  cbn [Sublime.replace_all Sublime.buffer].
  unfold Sublime.region_begin, Sublime.region_end. cbn [Sublime.a Sublime.b].
  rewrite Z.min_l, Z.max_r by lia.
  replace (Z.to_nat (Z.of_nat (String.length before) + 0))
    with (String.length before) by lia.
  replace (Z.to_nat (Z.of_nat (String.length before)
                     + Z.of_nat (String.length old) + 0))
    with (String.length before + String.length old)%nat by lia.
  by rewrite Hbuf, substring_0_app, slice_from_app_more, slice_from_app.
Qed.

(** X6. [EmmetInsertAttribute.run] does nothing without an attribute (None
    or empty).  With one, and one selected region, the region is replaced by
    the attribute snippet, and the attribute name always comes behind a
    whitespace character: the one already in front of the region or, failing
    that (also at the very start of the buffer), a space that the command
    puts in.  The text in front of and behind the region is kept. *)
Theorem insert_attribute_follows_whitespace :
  ∀ (v : View) (attr before old after : string),
    (EmmetInsertAttribute.run None v = v
     ∧ EmmetInsertAttribute.run (Some "") v = v)
    ∧ (attr ≠ "" →
       Sublime.buffer v = before +:+ old +:+ after →
       Sublime.sel v = [Sublime.mkRegion (Z.of_nat (String.length before))
                          (Z.of_nat (String.length before)
                           + Z.of_nat (String.length old))] →
       ∃ lead,
         Sublime.buffer (EmmetInsertAttribute.run (Some attr) v)
         = (lead +:+ attr +:+ "=" +:+ DQUOTE +:+ "$1" +:+ DQUOTE) +:+ after
         ∧ (lead = before ∨ lead = before +:+ " ")
         ∧ ends_with_space lead).
Proof.
  intros v attr before old after. split; [done|].
  intros Hattr Hbuf Hsel.
  assert (Hrun : ∀ lead, EmmetInsertAttribute.prefix_of v = lead →
    Sublime.buffer (EmmetInsertAttribute.run (Some attr) v)
    = ((before +:+ lead) +:+ attr +:+ "=" +:+ DQUOTE +:+ "$1" +:+ DQUOTE) +:+ after).
  { intros lead Hlead. unfold EmmetInsertAttribute.run.
    assert (Text.str_truthy attr = true) as -> by by destruct attr.
    cbn [negb]. rewrite (insert_snippet_one_region v before old after _ Hbuf Hsel).
    rewrite Hlead. by rewrite !string_app_assoc. }
  assert (Hblank : ends_with_space (before +:+ " ")) by by exists before, " "%char.
  unfold EmmetInsertAttribute.prefix_of in Hrun. rewrite Hsel in Hrun.
  cbn [head] in Hrun. unfold Sublime.region_begin at 1 2 in Hrun.
  cbn [Sublime.a Sublime.b] in Hrun. rewrite Z.min_l in Hrun by lia.
  destruct (decide (before = "")) as [->|Hne].
  - exists " ". split; [|split; [by right | by exists "", " "%char]].
    apply (Hrun " ").
    assert (Hs : Sublime.substr v
                   (Sublime.mkRegion (Z.of_nat (String.length "") - 1)
                                     (Z.of_nat (String.length ""))) = "").
    { unfold Sublime.substr, Sublime.point, Sublime.size,
        Sublime.region_begin, Sublime.region_end.
      cbn [Sublime.a Sublime.b String.length].
      assert (H0 : ∀ p, p ≤ 0 →
                Z.to_nat (Z.min (Z.max p 0)
                            (Z.of_nat (String.length (Sublime.buffer v)))) = 0%nat)
        by lia.
      rewrite !H0 by lia. apply substring_0_0. }
    by rewrite Hs.
  - destruct (last_char before Hne) as (front & c & Hfront).
    assert (Hc : Sublime.substr v
                   (Sublime.mkRegion (Z.of_nat (String.length before) - 1)
                                     (Z.of_nat (String.length before)))
                 = String c "").
    { rewrite Hfront. apply (substr_char_before v front (old +:+ after) c).
      by rewrite Hbuf, Hfront. }
    rewrite Hc in Hrun. cbn [Text.isspace Text.all_space] in Hrun.
    rewrite andb_true_r in Hrun.
    destruct (Ascii.is_space c) eqn:Hsp.
    + exists before. split; [|split; [by left | by exists front, c]].
      rewrite (Hrun "" eq_refl). by rewrite string_app_nil.
    + exists (before +:+ " "). split; [by apply Hrun|]. split; [by right | done].
Qed.

Lemma insert_attribute_follows_whitespace_witness :
  ∃ lead,
    Sublime.buffer (EmmetInsertAttribute.run (Some "href") open_tag_view)
    = (lead +:+ "href" +:+ "=" +:+ DQUOTE +:+ "$1" +:+ DQUOTE) +:+ ">"
    ∧ (lead = "<a" ∨ lead = "<a" +:+ " ")
    ∧ ends_with_space lead.
Proof.
  refine (proj2 (insert_attribute_follows_whitespace open_tag_view
                   "href" "<a" "" ">") _ eq_refl eq_refl).
  discriminate.
Defined.

(** ** More about [TabExpandHandler] *)

(** X7. A handler that [completion_handler] returns is never one the
    blacklist names, and its selector matches at the caret or one position
    before it; the attribute-value handler is returned only when the
    element-attribute handler is blacklisted or its selector matches at
    neither position. *)
Theorem completion_handler_is_allowed_and_matches :
  ∀ (match_selector : View → Z → string → bool) (cmpl : Completions)
    (settings : gmap string value) (view : View) (h : handler),
    completion_handler match_selector cmpl settings view = Some (Some h) →
    ∃ r,
      head (Sublime.sel view) = Some r
      ∧ py_in (handler_name h)
          (settings_get settings "completions_blacklist" (VList [])) = Some false
      ∧ match_selector view (Sublime.b r) (selector_of cmpl h)
        || match_selector view (Sublime.b r - 1) (selector_of cmpl h) = true
      ∧ (h = html_attributes_values_handler →
         py_in "html_elements_attributes"
           (settings_get settings "completions_blacklist" (VList [])) = Some true
         ∨ match_selector view (Sublime.b r) (HTML_INSIDE_TAG cmpl)
           || match_selector view (Sublime.b r - 1) (HTML_INSIDE_TAG cmpl) = false).
Proof.
  intros ms cmpl settings view h. unfold completion_handler, caret.
  destruct (head (Sublime.sel view)) as [r|]; [|done].
  cbn [mbind option_bind COMPLETIONS completion_loop handler_name].
  intros H. exists r. split; [done|].
  destruct (py_in "html_elements_attributes" _) as [[|]|] eqn:He; [| |done];
    cbn [mbind option_bind] in H.
  - destruct (py_in "html_attributes_values" _) as [[|]|] eqn:Ha; [done| |done];
      cbn [mbind option_bind] in H.
    destruct (ms view (Sublime.b r) (HTML_INSIDE_TAG_ATTRIBUTE cmpl)
              || ms view (Sublime.b r - 1) (HTML_INSIDE_TAG_ATTRIBUTE cmpl)) eqn:Hm;
      [|done].
    injection H as <-. cbn [handler_name selector_of]. auto.
  - destruct (ms view (Sublime.b r) (HTML_INSIDE_TAG cmpl)
              || ms view (Sublime.b r - 1) (HTML_INSIDE_TAG cmpl)) eqn:Hm.
    + injection H as <-. cbn [handler_name selector_of]. by repeat split.
    + destruct (py_in "html_attributes_values" _) as [[|]|] eqn:Ha; [done| |done];
        cbn [mbind option_bind] in H.
      destruct (ms view (Sublime.b r) (HTML_INSIDE_TAG_ATTRIBUTE cmpl)
                || ms view (Sublime.b r - 1) (HTML_INSIDE_TAG_ATTRIBUTE cmpl)) eqn:Hm';
        [|done].
      injection H as <-. cbn [handler_name selector_of]. auto.
Qed.

Lemma completion_handler_is_allowed_and_matches_witness :
  ∃ r,
    head (Sublime.sel tag_view) = Some r
    ∧ py_in (handler_name html_elements_attributes_handler)
        (settings_get no_settings "completions_blacklist" (VList [])) = Some false
    ∧ tag_scopes tag_view (Sublime.b r)
        (selector_of sample_cmpl html_elements_attributes_handler)
      || tag_scopes tag_view (Sublime.b r - 1)
           (selector_of sample_cmpl html_elements_attributes_handler) = true
    ∧ (html_elements_attributes_handler = html_attributes_values_handler →
       py_in "html_elements_attributes"
         (settings_get no_settings "completions_blacklist" (VList [])) = Some true
       ∨ tag_scopes tag_view (Sublime.b r) (HTML_INSIDE_TAG sample_cmpl)
         || tag_scopes tag_view (Sublime.b r - 1) (HTML_INSIDE_TAG sample_cmpl) = false).
Proof.
  exact (completion_handler_is_allowed_and_matches tag_scopes sample_cmpl
           no_settings tag_view html_elements_attributes_handler eq_refl).
Defined.

(** X8. The Tab key never both expands and completes: whenever
    [on_query_context] invokes the expand action, [on_query_completions] has
    no completion to offer for the same view and settings. *)
Theorem tab_expansion_excludes_completions :
  ∀ (match_selector : View → Z → string → bool) (cmpl : Completions)
    (settings : gmap string value) (js : Engine) (view : View)
    (key prefix : string) (result : bool) (offered : list completion),
    on_query_context match_selector cmpl settings js view key
      = Some (result, [PyRunAction "expand_abbreviation"]) →
    on_query_completions match_selector cmpl settings view prefix = Some offered →
    offered = [].
Proof.
  intros ms cmpl settings js view key prefix result offered.
  unfold on_query_context, on_query_completions.
  destruct (bool_decide (key = "is_abbreviation")); cbn [negb]; [|done].
  destruct (correct_syntax ms cmpl view) as [[|]|] eqn:Hs;
    cbn [mbind option_bind negb orb];
    destruct (truthy (settings_get settings "disable_completions" (VBool false)));
    cbn [negb mbind option_bind]; try congruence.
  destruct (completion_handler ms cmpl settings view) as [[h|]|];
    cbn [mbind option_bind]; [|congruence|done].
  rewrite bool_decide_eq_true_2 by eauto. done.
Qed.

Lemma tab_expansion_excludes_completions_witness :
  on_query_completions script_scopes sample_cmpl no_settings script_view "" = Some [].
Proof.
  assert (H : ∃ offered,
    on_query_completions script_scopes sample_cmpl no_settings script_view ""
    = Some offered) by (by eexists).
  destruct H as [offered H]. rewrite H. f_equal.
  exact (tab_expansion_excludes_completions script_scopes sample_cmpl no_settings
           sample_engine script_view "is_abbreviation" "" true offered eq_refl H).
Defined.

(** X9. A view without a selection: [view.sel()[0]] raises, and so do
    [correct_syntax], [completion_handler] and [on_query_completions].
    [on_query_context] still answers False for a key other than
    is_abbreviation, and it invokes the expand action when completions are
    disabled and no scope is banned, since it then never looks at the
    selection; in every other case it raises. *)
Theorem no_selection_raises :
  ∀ (match_selector : View → Z → string → bool) (cmpl : Completions)
    (settings : gmap string value) (js : Engine) (view : View) (key prefix : string),
    Sublime.sel view = [] →
    correct_syntax match_selector cmpl view = None
    ∧ completion_handler match_selector cmpl settings view = None
    ∧ on_query_completions match_selector cmpl settings view prefix = None
    ∧ on_query_context match_selector cmpl settings js view key =
        if negb (bool_decide (key = "is_abbreviation")) then Some (false, [])
        else if truthy (settings_get settings "disable_completions" (VBool false))
                && negb (truthy (settings_get settings
                                   "disable_tab_abbreviations_for_scopes" (VStr "")))
             then Some (pyRunAction js "expand_abbreviation",
                        [PyRunAction "expand_abbreviation"])
             else None.
Proof.
  intros ms cmpl settings js view key prefix Hsel.
  unfold on_query_context, on_query_completions, completion_handler,
    correct_syntax, caret.
  rewrite Hsel. cbn [head mbind option_bind]. repeat split.
  destruct (bool_decide (key = "is_abbreviation")); cbn [negb]; [|done].
  destruct (truthy (settings_get settings "disable_completions" (VBool false)));
    cbn [negb andb mbind option_bind]; [|done].
  by destruct (truthy (settings_get settings
                         "disable_tab_abbreviations_for_scopes" (VStr ""))).
Qed.

Lemma no_selection_raises_witness :
  on_query_completions tag_scopes sample_cmpl no_settings unselected_view "" = None
  ∧ on_query_context tag_scopes sample_cmpl quiet_settings sample_engine
      unselected_view "is_abbreviation"
    = Some (true, [PyRunAction "expand_abbreviation"]).
Proof.
  split.
  - exact (proj1 (proj2 (proj2 (no_selection_raises tag_scopes sample_cmpl
             no_settings sample_engine unselected_view "" "" eq_refl)))).
  - exact (proj2 (proj2 (proj2 (no_selection_raises tag_scopes sample_cmpl
             quiet_settings sample_engine unselected_view "is_abbreviation" ""
             eq_refl)))).
Defined.

(** X10. Every completion [on_query_completions] returns comes from the
    static tables, for the tag or the attribute found at the caret: it is an
    attribute of the tag, labelled [name<TAB>@name] and inserted as
    [name="$1"], or a value of the attribute, labelled [value<TAB>@=value]
    and inserted as it is. *)
Theorem completions_come_from_the_tables :
  ∀ (match_selector : View → Z → string → bool) (cmpl : Completions)
    (settings : gmap string value) (view : View) (prefix : string)
    (offered : list completion) (trigger label contents : string),
    on_query_completions match_selector cmpl settings view prefix = Some offered →
    (trigger, label, contents) ∈ offered →
    ∃ r, head (Sublime.sel view) = Some r
      ∧ ((trigger ∈ listed_attributes (HTML_ELEMENTS_ATTRIBUTES cmpl)
                      (find_tag_name cmpl view (Sublime.b r))
          ∧ label = trigger +:+ TAB +:+ "@" +:+ trigger
          ∧ contents = trigger +:+ "=" +:+ DQUOTE +:+ "$1" +:+ DQUOTE)
         ∨ (trigger ∈ listed_attributes (HTML_ATTRIBUTES_VALUES cmpl)
                        (find_attribute_name cmpl view (Sublime.b r))
            ∧ label = trigger +:+ TAB +:+ "@=" +:+ trigger
            ∧ contents = trigger)).
Proof.
  intros ms cmpl settings view prefix offered trigger label contents.
  unfold on_query_completions, correct_syntax, caret.
  destruct (head (Sublime.sel view)) as [r|]; [|done].
  cbn [mbind option_bind].
  destruct (negb _ || _); [by intros [= <-] ?%elem_of_nil|].
  destruct (completion_handler ms cmpl settings view) as [[h|]|];
    cbn [mbind option_bind]; [|by intros [= <-] ?%elem_of_nil|done].
  intros [= <-] Hin. exists r. split; [done|].
  destruct h; cbn [call_handler] in Hin.
  - left. unfold html_elements_attributes in Hin.
    apply list_elem_of_fmap in Hin as (v & [= -> -> ->] & Hv).
    split; [|done]. unfold listed_attributes.
    destruct (find_tag_name cmpl view (Sublime.b r)) as [t|]; cbn in Hv;
      [|by apply elem_of_nil in Hv].
    by destruct (HTML_ELEMENTS_ATTRIBUTES cmpl !! t).
  - right. unfold html_attributes_values in Hin.
    apply list_elem_of_fmap in Hin as (v & [= -> -> ->] & Hv).
    split; [|done]. unfold listed_attributes.
    destruct (find_attribute_name cmpl view (Sublime.b r)) as [t|]; cbn in Hv;
      [|by apply elem_of_nil in Hv].
    by destruct (HTML_ATTRIBUTES_VALUES cmpl !! t).
Qed.

Lemma completions_come_from_the_tables_witness :
  ∃ r, head (Sublime.sel tag_view) = Some r
    ∧ (("href" ∈ listed_attributes (HTML_ELEMENTS_ATTRIBUTES sample_cmpl)
                   (find_tag_name sample_cmpl tag_view (Sublime.b r))
        ∧ "href" +:+ TAB +:+ "@href" = "href" +:+ TAB +:+ "@" +:+ "href"
        ∧ "href=" +:+ DQUOTE +:+ "$1" +:+ DQUOTE
          = "href" +:+ "=" +:+ DQUOTE +:+ "$1" +:+ DQUOTE)
       ∨ ("href" ∈ listed_attributes (HTML_ATTRIBUTES_VALUES sample_cmpl)
                     (find_attribute_name sample_cmpl tag_view (Sublime.b r))
          ∧ "href" +:+ TAB +:+ "@href" = "href" +:+ TAB +:+ "@=" +:+ "href"
          ∧ "href=" +:+ DQUOTE +:+ "$1" +:+ DQUOTE = "href")).
Proof.
  refine (completions_come_from_the_tables tag_scopes sample_cmpl no_settings
            tag_view "" _ "href" _ _ eq_refl _).
  apply list_elem_of_here.
Defined.

(** ** Cancelling the panel *)

Lemma setup_keeps_buffer js w :
  Sublime.buffer (view (setup js w)) = Sublime.buffer (view w)
  ∧ Sublime.undo_stack (view (setup js w)) = Sublime.undo_stack (view w).
Proof.
  unfold setup. destruct (cls (self w)); try done.
  by destruct (pyCaptureWrappingRange js (view w)) as [[r0 r1]|].
Qed.

(** X11. Cancelling takes the preview back.  After the command is invoked
    (whatever an earlier invocation left in [self.erase]) and any number of
    changes of the panel's text, each with its callbacks run before the next
    event, cancelling the panel and running its callback leaves the view as
    [setup] made it when the command was invoked: the text of the document
    and its undo history are what they were before the command, and no
    callback is left waiting. *)
Theorem cancel_takes_the_preview_back :
  ∀ (js : Engine) (decodes : string → bool) (w : World) (abbrs : list string),
    (∀ text, decodes text = true) →
    timers w = [] →
    let done := exec js decodes ([Invoke] ++ paced abbrs ++ [Cancel; Tick]) w in
    view done = view (run js w)
    ∧ Sublime.buffer (view done) = Sublime.buffer (view w)
    ∧ Sublime.undo_stack (view done) = Sublime.undo_stack (view w)
    ∧ timers done = [].
Proof.
  intros js decodes w abbrs Hdec Hempty done.
  assert (Hview : view done = view (run js w) ∧ timers done = []).
  { unfold done. rewrite !exec_app.
    change (exec js decodes [Invoke] w) with (run js w).
    assert (Ht : timers (run js w) = []).
    { unfold run. cbn [set_erase set_self timers]. by rewrite timers_setup. }
    assert (He : erase (self (run js w)) = false) by done.
    destruct (paced_changes_keep_start js decodes (run js w) abbrs Hdec Ht He)
      as (Ht' & _ & _ & Hv).
    set (w2 := exec js decodes (paced abbrs) (run js w)) in *.
    rewrite <- Hv. unfold before_apply.
    change (exec js decodes [Cancel; Tick] w2) with (tick js decodes (undo w2)).
    unfold undo. destruct (erase (self w2)).
    - unfold tick, set_timeout. cbn [timers]. rewrite Ht'. done.
    - by rewrite (tick_idle js decodes w2 Ht'). }
  destruct Hview as [Hv Ht]. rewrite Hv.
  repeat split; [| |done]; unfold run; cbn [set_erase set_self view];
    apply setup_keeps_buffer.
Qed.

Lemma cancel_takes_the_preview_back_witness :
  Sublime.buffer
    (view (exec sample_engine all_decode
             ([Invoke] ++ paced ["d"; "di"; ""; "div"] ++ [Cancel; Tick])
             (new_world WrapAsYouType foo_view)))
  = Sublime.buffer (view (new_world WrapAsYouType foo_view)).
Proof.
  exact (proj1 (proj2 (cancel_takes_the_preview_back sample_engine all_decode
                         (new_world WrapAsYouType foo_view) ["d"; "di"; ""; "div"]
                         (λ _, eq_refl) eq_refl))).
Defined.

(** ** When the engine is called *)

Section engine_calls.
Context (js : Engine) (decodes : string → bool).

Lemma call_of_same_object s1 s2 t :
  cls s1 = cls s2 → selection s1 = selection s2 → call_of s1 t = call_of s2 t.
Proof. intros Hc Hs. destruct t; [done|]. cbn. by rewrite Hc, Hs. Qed.

Lemma calls_of_one_event w e :
  e ≠ Invoke →
  calls (handle js decodes w e)
  = calls w ++ (ran js decodes [e] w ≫= call_of (self w)).
Proof.
  intros He. destruct e as [|abbr| | |v]; cbn [handle ran app]; try done.
  - rewrite app_nil_r. unfold insert, undo.
    by destruct (negb (Text.str_truthy abbr) && erase (self w)), (erase (self w)).
  - rewrite app_nil_r. unfold undo. by destruct (erase (self w)).
  - rewrite app_nil_r. unfold tick.
    destruct (timers w) as [|[|abbr] rest]; cbn [head option_list mbind list_bind app];
      rewrite ?app_nil_r; try done.
    cbn [run_task]. rewrite inner_insert_fields. cbn zeta. cbn [calls].
    unfold filter_input, call_of. cbn [set_view self].
    destruct (cls (self w)); cbn [snd log_call calls]; by rewrite ?app_nil_r.
  - by rewrite app_nil_r.
Qed.

Lemma calls_of_a_trace trace : ∀ w,
  Invoke ∉ trace →
  calls (exec js decodes trace w)
  = calls w ++ (ran js decodes trace w ≫= call_of (self w)).
Proof.
  induction trace as [|e rest IH]; intros w Hno.
  - by rewrite app_nil_r.
  - apply not_elem_of_cons in Hno as [He Hrest].
    assert (He' : e ≠ Invoke) by congruence.
    destruct (self_handle js decodes w e He') as [Hc Hs].
    cbn [exec foldl]. fold (exec js decodes rest (handle js decodes w e)).
    rewrite (IH _ Hrest), (calls_of_one_event w e He').
    assert (Hran : ran js decodes (e :: rest) w
              = ran js decodes [e] w ++ ran js decodes rest (handle js decodes w e)).
    { cbn [ran]. by rewrite app_nil_r. }
    rewrite Hran, bind_app, <- app_assoc. f_equal. f_equal.
    apply list_bind_ext; [|done]. intros t. by apply call_of_same_object.
Qed.

End engine_calls.

(** X13. The engine is never called inside a callback of the input panel:
    over any run of changes, cancels and timer callbacks, the calls into the
    engine are exactly one for every deferred [inner_insert] the editor has
    run, in the order it ran them, each with the abbreviation of its change
    (and, for the wrap command, the stored text); the base class calls the
    engine never. *)
Theorem engine_is_called_once_per_apply :
  ∀ (js : Engine) (decodes : string → bool) (w : World) (trace : list event),
    Invoke ∉ trace →
    calls (exec js decodes trace w)
    = calls w ++ (ran js decodes trace w ≫= call_of (self w)).
Proof. intros js decodes w trace. apply calls_of_a_trace. Qed.

Lemma engine_is_called_once_per_apply_witness :
  calls (exec sample_engine all_decode [Change "d"; Change "di"; Tick; Cancel; Tick]
           (new_world ExpandAsYouType empty_view))
  = [PyExpandAbbreviationAsYouType "d"; PyExpandAbbreviationAsYouType "di"].
Proof.
  refine (engine_is_called_once_per_apply sample_engine all_decode
            (new_world ExpandAsYouType empty_view)
            [Change "d"; Change "di"; Tick; Cancel; Tick] _).
  intros H. not_in_list H.
Defined.
